(** * Mnemosyne CLIP embedding service: a shallow embedding of
      [embeddings/main.py] and the properties of its decoding, generation,
      batch and health paths.

    The service is a thin Python layer over four external collaborators
    (the [base64] module, PIL, the CLIP processor and the CLIP model).  The
    collaborators are an interface ([Platform]); everything the module itself
    does (header stripping, exception wrapping and dispatch, the readiness
    guard, normalisation and flattening, the batch loop, the module globals)
    is written out below, function by function. *)

From Stdlib Require Import String Ascii List Bool Arith Lia DecimalString.
From Stdlib Require Floats Reals Lra Psatz.
Import ListNotations.
Open Scope string_scope.
Open Scope list_scope.

Set Implicit Arguments.

(** ** Python exceptions *)

(** The classes the module raises or tells apart.  [Subclass name base] is
    any class deriving from [base]: [binascii.Error] derives from
    [ValueError], PIL's [UnidentifiedImageError] from [OSError]. *)
Inductive exception_class : Type :=
| Exception
| ValueError
| RuntimeError
| OSError
| IndexError
| TypeError
| AttributeError
| Subclass (name : string) (base : exception_class).

Definition binascii_Error : exception_class := Subclass "binascii.Error" ValueError.
Definition UnidentifiedImageError : exception_class :=
  Subclass "UnidentifiedImageError" OSError.

(** A raised exception object: an ordinary exception with the text [str(e)]
    gives, or FastAPI's [HTTPException(status_code, detail)]. *)
Inductive exn : Type :=
| Exn (cls : exception_class) (msg : string)
| HTTPException (status_code : nat) (detail : string).

(** [issubclass(c, ValueError)] *)
Fixpoint issubclass_ValueError (c : exception_class) : bool :=
  match c with
  | ValueError => true
  | Subclass _ base => issubclass_ValueError base
  | _ => false
  end.

(** [isinstance(e, ValueError)], the test of an [except ValueError] clause. *)
Definition isinstance_ValueError (e : exn) : bool :=
  match e with
  | Exn c _ => issubclass_ValueError c
  | HTTPException _ _ => false
  end.

Definition string_of_nat (n : nat) : string :=
  NilEmpty.string_of_uint (Nat.to_uint n).

(** [str(e)], as the f-strings of the module interpolate it. *)
Definition str (e : exn) : string :=
  match e with
  | Exn _ msg => msg
  | HTTPException c d => string_of_nat c ++ ": " ++ d
  end.

(** Outcome of a call: a value, or an exception propagating to the caller. *)
Inductive result (A : Type) : Type :=
| Ok (a : A)
| Raised (e : exn).
Arguments Ok {A} a.
Arguments Raised {A} e.

Definition is_ok {A} (r : result A) : bool :=
  match r with Ok _ => true | Raised _ => false end.

(** ** Strings *)

(** [c in s] for a one-character needle. *)
Fixpoint str_contains (c : ascii) (s : string) : bool :=
  match s with
  | EmptyString => false
  | String a s' => if Ascii.eqb a c then true else str_contains c s'
  end.

(** [s.split(sep)] for a one-character separator: every occurrence cuts,
    empty fields are kept, and the result is never empty. *)
Fixpoint split (sep : ascii) (s : string) : list string :=
  match s with
  | EmptyString => [EmptyString]
  | String a s' =>
      if Ascii.eqb a sep then EmptyString :: split sep s'
      else match split sep s' with
           | [] => [String a EmptyString]
           | w :: ws => String a w :: ws
           end
  end.

(** [l[i]] on a Python list: [IndexError] out of range. *)
Definition getitem {A} (l : list A) (i : nat) : result A :=
  match nth_error l i with
  | Some x => Ok x
  | None => Raised (Exn IndexError "list index out of range")
  end.

Definition comma : ascii := ","%char.

(** ** The collaborators *)

(** What the module imports and calls.  A tensor of image features is a list
    of rows (one per image of the processed batch); [norm_p2] is
    [row.norm(p=2)] and [float_div] the elementwise division. *)
Class Platform : Type := {
  bytes : Type;
  PILImage : Type;
  BatchFeature : Type;
  CLIPModel : Type;
  CLIPProcessor : Type;
  float : Type;
  base64_b64decode : string -> result bytes;
  Image_open : bytes -> result PILImage;
  Image_convert : PILImage -> string -> result PILImage;
  torch_cuda_is_available : bool;
  CLIPModel_from_pretrained : string -> result CLIPModel;
  Module_to : CLIPModel -> string -> result CLIPModel;
  Module_eval : CLIPModel -> CLIPModel;
  CLIPProcessor_from_pretrained : string -> result CLIPProcessor;
  processor_call : CLIPProcessor -> PILImage -> result BatchFeature;
  BatchFeature_to : BatchFeature -> string -> result BatchFeature;
  get_image_features : CLIPModel -> BatchFeature -> result (list (list float));
  float_div : float -> float -> float;
  norm_p2 : list float -> float
}.

(** ** Pydantic models *)

Record EmbeddingRequest : Type := {
  image_base64 : string;
  image_id : option string
}.

Record EmbeddingResponse {P : Platform} : Type := {
  resp_image_id : option string;
  embedding : list float;
  dimension : nat
}.

Record BatchEmbeddingRequest : Type := { images : list EmbeddingRequest }.

Record BatchEmbeddingResponse {P : Platform} : Type := {
  embeddings : list EmbeddingResponse
}.

Record HealthResponse : Type := {
  status : string;
  model_loaded : bool;
  health_device : string
}.

(** ** Module globals and the effects of a call *)

Inductive log_level : Type := INFO | ERROR.

(** The module-level names [model], [processor] and [device], and the
    records the module's logger has received so far. *)
Record world {P : Platform} : Type := {
  model : option CLIPModel;
  processor : option CLIPProcessor;
  device : string;
  log : list (log_level * string)
}.

(** The module as imported, before [lifespan] has run. *)
Definition initial_world {P : Platform} : world :=
  {| model := None; processor := None; device := "cpu"; log := [] |}.

Section Effects.
Context {P : Platform}.

  (** A call reads and writes the globals and returns or raises; what it
      wrote before raising stays written. *)
Definition M (A : Type) : Type := world -> result A * world.

Definition ret {A} (a : A) : M A := fun w => (Ok a, w).

Definition raise {A} (e : exn) : M A := fun w => (Raised e, w).

Definition bind {A B} (m : M A) (k : A -> M B) : M B :=
    fun w =>
      match m w with
      | (Ok a, w') => k a w'
      | (Raised e, w') => (Raised e, w')
      end.

  (** [try: m  except Exception as e: handler e] *)
Definition try_except {A} (m : M A) (handler : exn -> M A) : M A :=
    fun w =>
      match m w with
      | (Ok a, w') => (Ok a, w')
      | (Raised e, w') => handler e w'
      end.

  (** A call into a collaborator: it does not touch the module globals. *)
Definition call {A} (r : result A) : M A := fun w => (r, w).

Definition get_model : M (option CLIPModel) := fun w => (Ok (model w), w).
Definition get_processor : M (option CLIPProcessor) :=
    fun w => (Ok (processor w), w).
Definition get_device : M string := fun w => (Ok (device w), w).

Definition set_model (m : option CLIPModel) : M unit :=
    fun w => (Ok tt, {| model := m; processor := processor w;
                        device := device w; log := log w |}).
Definition set_processor (p : option CLIPProcessor) : M unit :=
    fun w => (Ok tt, {| model := model w; processor := p;
                        device := device w; log := log w |}).
Definition set_device (d : string) : M unit :=
    fun w => (Ok tt, {| model := model w; processor := processor w;
                        device := d; log := log w |}).

Definition logger (lvl : log_level) (msg : string) : M unit :=
    fun w => (Ok tt, {| model := model w; processor := processor w;
                        device := device w; log := log w ++ [(lvl, msg)] |}).

  (** [for x in xs: acc = body acc x], stopping at the first exception that
      escapes the body. *)
Fixpoint for_each {A B} (xs : list A) (body : B -> A -> M B) (acc : B) : M B :=
    match xs with
    | [] => ret acc
    | x :: xs' => bind (body acc x) (fun acc' => for_each xs' body acc')
    end.
End Effects.

Notation "x <- m ;; k" := (bind m (fun x => k))
  (at level 61, m at next level, right associativity).
Notation "m ;;; k" := (bind m (fun _ => k))
  (at level 61, right associativity).

(** The same sequencing for code that touches no global. *)
Definition rbind {A B} (r : result A) (k : A -> result B) : result B :=
  match r with
  | Ok a => k a
  | Raised e => Raised e
  end.

Definition rtry {A} (r : result A) (handler : exn -> result A) : result A :=
  match r with
  | Ok a => Ok a
  | Raised e => handler e
  end.

Notation "x <-- r ;; k" := (rbind r (fun x => k))
  (at level 61, r at next level, right associativity).

(** ** The module's functions *)

Section Service.
Context {P : Platform}.

(** Lines 107-108 of [decode_image]: the text handed to [base64.b64decode].
    [split(",")[1]] is the field between the first comma and the next. *)
Definition b64_payload (image_base64 : string) : result string :=
  if str_contains comma image_base64
  then getitem (split comma image_base64) 1
  else Ok image_base64.

(** [decode_image]: whatever the body raises is caught and replaced by a
    [ValueError] quoting it. *)
Definition decode_image (image_base64 : string) : result PILImage :=
  rtry
    (image_base64 <-- b64_payload image_base64 ;;
     image_data <-- base64_b64decode image_base64 ;;
     opened <-- Image_open image_data ;;
     image <-- Image_convert opened "RGB" ;;
     Ok image)
    (fun e => Raised (Exn ValueError ("Failed to decode image: " ++ str e))).

(** [image_features / image_features.norm(p=2, dim=-1, keepdim=True)]: each
    row is divided, element by element, by its own norm. *)
Definition normalize (image_features : list (list float)) : list (list float) :=
  map (fun row => map (fun x => float_div x (norm_p2 row)) row) image_features.

(** [.cpu().numpy().flatten().tolist()] *)
Definition flatten (t : list (list float)) : list float := concat t.

(** [generate_embedding] *)
Definition generate_embedding (image : PILImage) : M (list float) :=
  m <- get_model ;;
  p <- get_processor ;;
  match m, p with
  | Some m, Some p =>
      d <- get_device ;;
      inputs <- call (processor_call p image) ;;
      inputs <- call (BatchFeature_to inputs d) ;;
      image_features <- call (get_image_features m inputs) ;;
      let image_features := normalize image_features in
      let embedding := flatten image_features in
      ret embedding
  | _, _ => raise (Exn RuntimeError "Model not loaded")
  end.

(** [health_check] *)
Definition health_check : M HealthResponse :=
  m <- get_model ;;
  d <- get_device ;;
  ret {| status := "healthy";
         model_loaded := match m with Some _ => true | None => false end;
         health_device := d |}.

(** [create_embedding] *)
Definition create_embedding (request : EmbeddingRequest) : M EmbeddingResponse :=
  try_except
    (image <- call (decode_image (image_base64 request)) ;;
     embedding <- generate_embedding image ;;
     ret {| resp_image_id := image_id request;
            embedding := embedding;
            dimension := length embedding |})
    (fun e =>
       if isinstance_ValueError e
       then raise (HTTPException 400 (str e))
       else
         logger ERROR ("Error generating embedding: " ++ str e) ;;;
         raise (HTTPException 500 ("Embedding generation failed: " ++ str e))).

(** [f"{image_id}"] for an [Optional[str]]. *)
Definition format_optional (o : option string) : string :=
  match o with
  | Some s => s
  | None => "None"
  end.

(** One turn of the loop of [create_batch_embeddings]. *)
Definition batch_step (results : list EmbeddingResponse)
    (img_request : EmbeddingRequest) : M (list EmbeddingResponse) :=
  try_except
    (image <- call (decode_image (image_base64 img_request)) ;;
     embedding <- generate_embedding image ;;
     ret (results ++ [ {| resp_image_id := image_id img_request;
                          embedding := embedding;
                          dimension := length embedding |} ]))
    (fun e =>
       logger ERROR ("Error processing image "
                     ++ format_optional (image_id img_request) ++ ": " ++ str e) ;;;
       ret results).

(** [create_batch_embeddings] *)
Definition create_batch_embeddings (request : BatchEmbeddingRequest)
    : M BatchEmbeddingResponse :=
  results <- for_each (images request) batch_step [] ;;
  ret {| embeddings := results |}.

Definition model_name : string := "openai/clip-vit-base-patch32".

(** [lifespan], up to its [yield].  The body has no [await]: no handler runs
    between its first and its last statement. *)
Definition lifespan_startup : M unit :=
  logger INFO "Loading CLIP model (ViT-B/32)..." ;;;
  set_device (if torch_cuda_is_available then "cuda" else "cpu") ;;;
  d <- get_device ;;
  logger INFO ("Using device: " ++ d) ;;;
  loaded <- call (CLIPModel_from_pretrained model_name) ;;
  d <- get_device ;;
  moved <- call (Module_to loaded d) ;;
  set_model (Some moved) ;;;
  p <- call (CLIPProcessor_from_pretrained model_name) ;;
  set_processor (Some p) ;;;
  m <- get_model ;;
  match m with
  | Some m => set_model (Some (Module_eval m))
  | None => raise (Exn AttributeError "'NoneType' object has no attribute 'eval'")
  end ;;;
  logger INFO "CLIP model loaded successfully!".

(** [lifespan], after its [yield]. *)
Definition lifespan_shutdown : M unit :=
  logger INFO "Shutting down CLIP service...".

(** What the framework sends for the outcome of a handler: 200 with the
    returned model, the status of an [HTTPException], 500 for anything else
    that escapes. *)
Definition http_status {A} (r : result A) : nat :=
  match r with
  | Ok _ => 200
  | Raised (HTTPException c _) => c
  | Raised (Exn _ _) => 500
  end.

End Service.

(** ** The process: start-up, then requests one at a time *)

(** The three handlers are [async def] bodies without an [await]: each runs
    to its end before the next request is looked at. *)
Inductive request : Type :=
| GET_health
| POST_embed (body : EmbeddingRequest)
| POST_embed_batch (body : BatchEmbeddingRequest).

Section Process.
Context {P : Platform}.

Definition handle (rq : request) (w : world) : world :=
  match rq with
  | GET_health => snd (health_check w)
  | POST_embed body => snd (create_embedding body w)
  | POST_embed_batch body => snd (create_batch_embeddings body w)
  end.

Definition serve (rqs : list request) (w : world) : world :=
  fold_left (fun w rq => handle rq w) rqs w.

(** The globals two states of the module agree on, whatever was logged. *)
Definition same_globals (w w' : world) : Prop :=
  model w = model w' /\ processor w = processor w' /\ device w = device w'.

(** What one request yields in state [w]: the body both handlers run inside
    their [try]. *)
Definition embed_item (w : world) (r : EmbeddingRequest) : result EmbeddingResponse :=
  fst ((image <- call (decode_image (image_base64 r)) ;;
        embedding <- generate_embedding image ;;
        ret {| resp_image_id := image_id r;
               embedding := embedding;
               dimension := length embedding |}) w).

(** [generate_embedding] as a function of the state it is called in. *)
Definition generated (w : world) (image : PILImage) : result (list float) :=
  fst (generate_embedding image w).

Definition succeeds (w : world) (r : EmbeddingRequest) : bool :=
  is_ok (embed_item w r).

(** The responses of the items that succeed, in the order of the request. *)
Definition successes (w : world) (rs : list EmbeddingRequest) : list EmbeddingResponse :=
  flat_map (fun r => match embed_item w r with
                     | Ok resp => [resp]
                     | Raised _ => []
                     end) rs.

(** The world a handler leaves when it logs [msg] as an error. *)
Definition logged (w : world) (msg : string) : world :=
  {| model := model w; processor := processor w; device := device w;
     log := log w ++ [(ERROR, msg)] |}.

(** The exception [decode_image] reports for the cause [e]. *)
Definition DecodeError (e : exn) : exn :=
  Exn ValueError ("Failed to decode image: " ++ str e).

(** The input does not decode: [base64.b64decode] raises on its payload
    ([bad_base64]) or the decoded bytes are not an image PIL opens
    ([bad_image]) and converts ([bad_pixels]); [e] is what the collaborator
    raised. *)
Inductive decode_failure (s : string) (e : exn) : Prop :=
| bad_base64 payload :
    b64_payload s = Ok payload ->
    base64_b64decode payload = Raised e ->
    decode_failure s e
| bad_image payload data :
    b64_payload s = Ok payload ->
    base64_b64decode payload = Ok data ->
    Image_open data = Raised e ->
    decode_failure s e
| bad_pixels payload data opened :
    b64_payload s = Ok payload ->
    base64_b64decode payload = Ok data ->
    Image_open data = Ok opened ->
    Image_convert opened "RGB" = Raised e ->
    decode_failure s e.

End Process.

Arguments embed_item : simpl never.
Arguments successes : simpl never.
Arguments succeeds : simpl never.

(** ** What the specification says of the header *)

(** The text after the first [sep] of [s]: "strips everything up to and
    including the first separator".  Only used on a string that has one. *)
Fixpoint strip_to_first (sep : ascii) (s : string) : string :=
  match s with
  | EmptyString => EmptyString
  | String a s' => if Ascii.eqb a sep then s' else strip_to_first sep s'
  end.

(** The text before the first [sep] of [s] ([s] itself when there is none). *)
Fixpoint up_to_first (sep : ascii) (s : string) : string :=
  match s with
  | EmptyString => EmptyString
  | String a s' => if Ascii.eqb a sep then EmptyString else String a (up_to_first sep s')
  end.

(** ** The base64 decoder of the library *)

(** [base64.b64decode(s)] as line 110 calls it, on a [str] and with
    [validate=False]: the text must be ASCII, and [binascii.a2b_base64] then
    reads it leniently.  Bytes are numbers below 256. *)
Module Base64.
Local Open Scope nat_scope.

(** The value of a character of the alphabet [A-Z a-z 0-9 + /]. *)
Definition b64_index (c : ascii) : option nat :=
  let n := nat_of_ascii c in
  if (65 <=? n) && (n <=? 90) then Some (n - 65)
  else if (97 <=? n) && (n <=? 122) then Some (n - 71)
  else if (48 <=? n) && (n <=? 57) then Some (n + 4)
  else if n =? 43 then Some 62
  else if n =? 47 then Some 63
  else None.

Definition pad : ascii := "="%char.

(** The error for a single data character left over. *)
Definition one_left_over (bin : list nat) : exn :=
  Exn binascii_Error
    ("Invalid base64-encoded string: number of data characters ("
     ++ string_of_nat (length bin / 3 * 4 + 1)
     ++ ") cannot be 1 more than a multiple of 4")%string.

(** The loop of [a2b_base64] without strict mode.  [quad_pos] counts the
    data characters of the current group, [leftchar] holds the bits not yet
    written, [pads] the pad characters seen since the last data character
    (counted from the third position of a group on) and [bin] the bytes
    written.  A character outside the alphabet is skipped; a pad that
    completes a group ends the decoding, whatever follows. *)
Fixpoint a2b_base64 (data : string) (quad_pos leftchar pads : nat)
    (bin : list nat) : result (list nat) :=
  match data with
  | EmptyString =>
      match quad_pos with
      | 0 => Ok bin
      | 1 => Raised (one_left_over bin)
      | _ => Raised (Exn binascii_Error "Incorrect padding")
      end
  | String this_ch rest =>
      if Ascii.eqb this_ch pad then
        if 2 <=? quad_pos then
          if 4 <=? quad_pos + S pads then Ok bin
          else a2b_base64 rest quad_pos leftchar (S pads) bin
        else a2b_base64 rest quad_pos leftchar pads bin
      else
        match b64_index this_ch with
        | None => a2b_base64 rest quad_pos leftchar pads bin
        | Some v =>
            match quad_pos with
            | 0 => a2b_base64 rest 1 v 0 bin
            | 1 => a2b_base64 rest 2 (v mod 16) 0 (bin ++ [leftchar * 4 + v / 16])
            | 2 => a2b_base64 rest 3 (v mod 4) 0 (bin ++ [leftchar * 16 + v / 4])
            | _ => a2b_base64 rest 0 0 0 (bin ++ [leftchar * 64 + v])
            end
        end
  end.

(** [s.encode('ascii')] succeeds. *)
Fixpoint is_ascii (s : string) : bool :=
  match s with
  | EmptyString => true
  | String c rest => (nat_of_ascii c <? 128) && is_ascii rest
  end.

Definition b64decode (s : string) : result (list nat) :=
  if is_ascii s then a2b_base64 s 0 0 0 []
  else Raised (Exn ValueError "string argument should contain only ASCII characters").

Definition is_data (c : ascii) : bool :=
  match b64_index c with Some _ => true | None => false end.

(** "Valid base64" as RFC 4648 has it: groups of four characters of the
    alphabet, the last group ending in at most two pads. *)
Fixpoint valid_base64 (s : string) : bool :=
  match s with
  | EmptyString => true
  | String a (String b (String c (String d rest))) =>
      is_data a && is_data b &&
      match rest with
      | EmptyString =>
          (is_data c && (is_data d || Ascii.eqb d pad))
          || (Ascii.eqb c pad && Ascii.eqb d pad)
      | _ => is_data c && is_data d && valid_base64 rest
      end
  | _ => false
  end.

End Base64.

(** ** A platform of test doubles *)

(** Small stand-ins for the collaborators, to run the module on concrete
    requests: the base64 decoder above, an image opener that accepts any data
    starting with the PNG signature, a processor given as a parameter and a
    model that returns one row of 512 features. *)
Module Stub.
Local Open Scope nat_scope.

Definition b64decode : string -> result (list nat) := Base64.b64decode.

Definition open (data : list nat) : result (list nat) :=
  match data with
  | 137 :: 80 :: 78 :: 71 :: _ => Ok data
  | _ => Raised (Exn UnidentifiedImageError "cannot identify image file")
  end.

Definition l2 (row : list PrimFloat.float) : PrimFloat.float :=
  PrimFloat.sqrt
    (fold_left (fun acc x => PrimFloat.add acc (PrimFloat.mul x x)) row PrimFloat.zero).

Definition features (pixels : list nat) : list (list PrimFloat.float) :=
  [repeat PrimFloat.one 512].

(** The platform with [cuda] as the answer of [torch.cuda.is_available()]
    and [preprocess] as the processor. *)
Definition platform (cuda : bool) (preprocess : list nat -> result (list nat))
    : Platform :=
  {| bytes := list nat;
     PILImage := list nat;
     BatchFeature := list nat;
     CLIPModel := string;
     CLIPProcessor := string;
     float := PrimFloat.float;
     base64_b64decode := b64decode;
     Image_open := open;
     Image_convert := fun img _ => Ok img;
     torch_cuda_is_available := cuda;
     CLIPModel_from_pretrained := fun name => Ok name;
     Module_to := fun m _ => Ok m;
     Module_eval := fun m => m;
     CLIPProcessor_from_pretrained := fun name => Ok name;
     processor_call := fun _ img => preprocess img;
     BatchFeature_to := fun x _ => Ok x;
     get_image_features := fun _ x => Ok (features x);
     float_div := PrimFloat.div;
     norm_p2 := l2 |}.

(** A processor that accepts every image. *)
Definition accepting : Platform := platform false (fun img => Ok img).

(** A processor that rejects every image the way the image transforms
    reject an array whose channel axis they cannot tell. *)
Definition rejecting : Platform :=
  platform false
    (fun _ => Raised (Exn ValueError "Unable to infer channel dimension format")).

(** The four bytes of the PNG signature, in base64. *)
Definition png : string := "iVBORw==".

(** The module once [lifespan] has loaded model and processor. *)
Definition loaded (P : Platform) (m : @CLIPModel P) (p : @CLIPProcessor P) : @world P :=
  {| model := Some m; processor := Some p; device := "cpu"; log := [] |}.

(** The module after a start-up on each platform, and three requests: two
    that decode to the PNG signature and one that decodes to other bytes. *)
Definition ready : @world accepting := loaded accepting model_name model_name.
Definition ready_rejecting : @world rejecting := loaded rejecting model_name model_name.

Definition validA : EmbeddingRequest :=
  {| image_base64 := png; image_id := Some "A" |}.
Definition corruptB : EmbeddingRequest :=
  {| image_base64 := "AAAA"; image_id := Some "B" |}.
Definition validC : EmbeddingRequest :=
  {| image_base64 := "data:image/png;base64,iVBORw=="; image_id := Some "C" |}.

Definition signature : list nat := [137; 80; 78; 71].

End Stub.

(** ** What the handlers leave in the log *)

Section Records.
Context {P : Platform}.

(** The world with [records] appended to its log, the globals as they are. *)
Definition with_log (w : world) (records : list (log_level * string)) : world :=
  {| model := model w; processor := processor w; device := device w;
     log := log w ++ records |}.

(** The record the batch loop writes for an item that raised [e]. *)
Definition failure_record (r : EmbeddingRequest) (e : exn) : log_level * string :=
  (ERROR, ("Error processing image " ++ format_optional (image_id r)
           ++ ": " ++ str e)%string).

(** The records of the items that fail, in the order of the request. *)
Definition failure_records (w : world) (rs : list EmbeddingRequest)
    : list (log_level * string) :=
  flat_map (fun r => match embed_item w r with
                     | Ok _ => []
                     | Raised e => [failure_record r e]
                     end) rs.

(** The three records of a start-up that reaches its [yield]. *)
Definition startup_records : list (log_level * string) :=
  [ (INFO, "Loading CLIP model (ViT-B/32)...");
    (INFO, ("Using device: "
            ++ (if torch_cuda_is_available then "cuda" else "cpu"))%string);
    (INFO, "CLIP model loaded successfully!") ].

End Records.

Arguments failure_records : simpl never.

(** ** Test doubles whose loaders can fail *)

Module Faulty.

Definition offline {A} : result A :=
  Raised (Exn OSError "We couldn't connect to 'https://huggingface.co'").

(** The accepting platform of [Stub], with the two [from_pretrained] calls
    as parameters. *)
Definition platform (load_model load_processor : string -> result string)
    : Platform :=
  {| bytes := list nat;
     PILImage := list nat;
     BatchFeature := list nat;
     CLIPModel := string;
     CLIPProcessor := string;
     float := PrimFloat.float;
     base64_b64decode := Stub.b64decode;
     Image_open := Stub.open;
     Image_convert := fun img _ => Ok img;
     torch_cuda_is_available := true;
     CLIPModel_from_pretrained := load_model;
     Module_to := fun m d => Ok (m ++ "@" ++ d)%string;
     Module_eval := fun m => (m ++ ".eval")%string;
     CLIPProcessor_from_pretrained := load_processor;
     processor_call := fun _ img => Ok img;
     BatchFeature_to := fun x _ => Ok x;
     get_image_features := fun _ x => Ok (Stub.features x);
     float_div := PrimFloat.div;
     norm_p2 := Stub.l2 |}.

Definition no_model : Platform := platform (fun _ => offline) (fun name => Ok name).
Definition no_processor : Platform := platform (fun name => Ok name) (fun _ => offline).
Definition online : Platform := platform (fun name => Ok name) (fun name => Ok name).

End Faulty.

(** ** Reading floats as real numbers *)

Module Reading.
Import Reals.
Local Open Scope R_scope.

Section Exact.
Context {P : Platform}.

(** The real number a float of the platform stands for. *)
Variable value : float -> R.

Definition sum_squares (row : list float) : R :=
  fold_right (fun x acc => value x * value x + acc) 0 row.

(** The Euclidean norm of the numbers a vector holds. *)
Definition euclidean_norm (row : list float) : R := sqrt (sum_squares row).

(** The norm the platform computes for [row] is within the relative error
    [u] of the Euclidean norm. *)
Definition norm_within (u : R) (row : list float) : Prop :=
  Rabs (value (norm_p2 row) - euclidean_norm row) <= u * euclidean_norm row.

(** The quotient the platform computes for [x / n] is within the relative
    error [u] of the quotient of the numbers. *)
Definition div_within (u : R) (x n : float) : Prop :=
  Rabs (value (float_div x n) - value x * / value n)
  <= u * Rabs (value x * / value n).

End Exact.

(** Numerator and denominator of a finite binary float; zero for zeros,
    infinities and NaN. *)
Definition fraction (f : SpecFloat.spec_float) : Z * Z :=
  match f with
  | SpecFloat.S754_finite s m e =>
      let n := if s then Z.neg m else Z.pos m in
      if (0 <=? e)%Z then (n * 2 ^ e, 1)%Z else (n, 2 ^ (- e))%Z
  | _ => (0, 1)%Z
  end.

(** The number a binary64 float stands for. *)
Definition B2R (x : PrimFloat.float) : R :=
  IZR (fst (fraction (FloatOps.Prim2SF x))) * / IZR (snd (fraction (FloatOps.Prim2SF x))).

End Reading.

(** ** A model without features *)

Module Degenerate.

(** The accepting platform of [Stub], with a model whose features are all
    zero. *)
Definition platform : Platform :=
  {| bytes := list nat;
     PILImage := list nat;
     BatchFeature := list nat;
     CLIPModel := string;
     CLIPProcessor := string;
     float := PrimFloat.float;
     base64_b64decode := Stub.b64decode;
     Image_open := Stub.open;
     Image_convert := fun img _ => Ok img;
     torch_cuda_is_available := false;
     CLIPModel_from_pretrained := fun name => Ok name;
     Module_to := fun m _ => Ok m;
     Module_eval := fun m => m;
     CLIPProcessor_from_pretrained := fun name => Ok name;
     processor_call := fun _ img => Ok img;
     BatchFeature_to := fun x _ => Ok x;
     get_image_features := fun _ _ => Ok [repeat PrimFloat.zero 512];
     float_div := PrimFloat.div;
     norm_p2 := Stub.l2 |}.

Definition ready : @world platform := Stub.loaded platform model_name model_name.

End Degenerate.

(** ** Splitting at the separator *)

Unset Implicit Arguments.

Lemma split_shape (sep : ascii) (s : string) :
  exists ws, split sep s = up_to_first sep s :: ws.
Proof.
  induction s as [|a s IH]; simpl.
  - now exists [].
  - destruct (Ascii.eqb a sep).
    + eexists; reflexivity.
    + destruct IH as [ws ->]. now exists ws.
Qed.

Lemma split_contains (sep : ascii) (s : string) :
  str_contains sep s = true ->
  split sep s = up_to_first sep s :: split sep (strip_to_first sep s).
Proof.
  induction s as [|a s IH]; simpl; [discriminate|].
  destruct (Ascii.eqb a sep); [reflexivity|].
  intros H. now rewrite (IH H).
Qed.

Lemma up_to_first_no_sep (sep : ascii) (s : string) :
  str_contains sep s = false -> up_to_first sep s = s.
Proof.
  induction s as [|a s IH]; simpl; [reflexivity|].
  destruct (Ascii.eqb a sep); [discriminate|].
  intros H. now rewrite (IH H).
Qed.

Lemma split_no_sep (sep : ascii) (s : string) :
  str_contains sep s = false -> split sep s = [s].
Proof.
  induction s as [|a s IH]; simpl; [reflexivity|].
  destruct (Ascii.eqb a sep); [discriminate|].
  intros H. now rewrite (IH H).
Qed.

Lemma str_contains_app (sep : ascii) (h t : string) :
  str_contains sep (h ++ String sep t) = true.
Proof.
  induction h as [|a h IH]; simpl.
  - now rewrite Ascii.eqb_refl.
  - now destruct (Ascii.eqb a sep).
Qed.

Lemma strip_to_first_app (sep : ascii) (h t : string) :
  str_contains sep h = false -> strip_to_first sep (h ++ String sep t) = t.
Proof.
  induction h as [|a h IH]; simpl.
  - now rewrite Ascii.eqb_refl.
  - destruct (Ascii.eqb a sep); [discriminate | exact IH].
Qed.

(** With a separator in the input, the decoder is given the field between
    the first separator and the next. *)
Lemma b64_payload_with_sep (s : string) :
  str_contains comma s = true ->
  b64_payload s = Ok (up_to_first comma (strip_to_first comma s)).
Proof.
  intros H. unfold b64_payload. rewrite H, (split_contains _ _ H).
  destruct (split_shape comma (strip_to_first comma s)) as [ws ->].
  reflexivity.
Qed.

Lemma b64_payload_without_sep (s : string) :
  str_contains comma s = false -> b64_payload s = Ok s.
Proof. intros H. unfold b64_payload. now rewrite H. Qed.


Section DecodeProperties.
Context {P : Platform}.

(** [decode_image] depends on its input through the payload only. *)
Lemma decode_image_payload (s t : string) :
  b64_payload s = b64_payload t -> decode_image s = decode_image t.
Proof. intros H. unfold decode_image. now rewrite H. Qed.


Lemma decode_failure_raises (s : string) (e : exn) :
  decode_failure s e -> decode_image s = Raised (DecodeError e).
Proof.
  intros [payload Hp Hd | payload data Hp Hd Ho | payload data opened Hp Hd Ho Hc];
    unfold decode_image; rewrite Hp; simpl; rewrite Hd; simpl;
    try (rewrite Ho; simpl); try (rewrite Hc; simpl); reflexivity.
Qed.


(** C4 (as the code has it). With a separator in the input, the text given
    to the base64 decoder is the field between the first separator and the
    next one; it is the whole remainder when the remainder has no further
    separator; and a header and a payload without separators, joined by one,
    decode to what the payload alone decodes to. *)
Theorem decode_image_strips_header (s : string) :
  str_contains comma s = true ->
  b64_payload s = Ok (up_to_first comma (strip_to_first comma s))
  /\ (str_contains comma (strip_to_first comma s) = false ->
      b64_payload s = Ok (strip_to_first comma s))
  /\ (forall header data : string,
        s = (header ++ String comma data)%string ->
        str_contains comma header = false ->
        str_contains comma data = false ->
        decode_image s = decode_image data).
Proof.
  intros H. split; [|split].
  - now apply b64_payload_with_sep.
  - intros Hr. rewrite (b64_payload_with_sep _ H). now rewrite up_to_first_no_sep.
  - intros header data -> Hh Hd. apply decode_image_payload.
    rewrite (b64_payload_with_sep _ H), (strip_to_first_app _ _ _ Hh).
    rewrite (up_to_first_no_sep _ _ Hd). symmetry. now apply b64_payload_without_sep.
Qed.

End DecodeProperties.

(** C4, as stated, fails on an input with two separators: of ["a,b,c"] the
    module decodes ["b"], not the remainder ["b,c"] after the first
    separator. *)
Lemma decode_image_second_separator :
  str_contains comma "a,b,c" = true
  /\ b64_payload "a,b,c" = Ok "b"
  /\ strip_to_first comma "a,b,c" = "b,c"
  /\ ~ (forall s, str_contains comma s = true ->
                  b64_payload s = Ok (strip_to_first comma s)).
Proof.
  repeat split.
  intros H. specialize (H "a,b,c" eq_refl). discriminate H.
Qed.

(** ** Generation and the single-image handler *)

Ltac run :=
  unfold embed_item, generated, create_embedding, batch_step,
    generate_embedding, health_check, try_except, bind, call, ret, raise,
    logger, get_model, get_processor, get_device in *;
  simpl in *.

Section HandlerProperties.
Context {P : Platform}.

Lemma same_globals_refl (w : world) : same_globals w w.
Proof. now repeat split. Qed.

Lemma same_globals_trans (w1 w2 w3 : world) :
  same_globals w1 w2 -> same_globals w2 w3 -> same_globals w1 w3.
Proof. intros (A & B & C) (A' & B' & C'). repeat split; congruence. Qed.

(** [generate_embedding] only reads the globals. *)
Lemma generate_embedding_reads (image : PILImage) (w : world) :
  generate_embedding image w = (generated w image, w).
Proof.
  run. destruct (model w) as [m|]; [|reflexivity].
  destruct (processor w) as [p|]; [|reflexivity]. simpl.
  destruct (processor_call p image) as [x|e]; [|reflexivity]. simpl.
  destruct (BatchFeature_to x (device w)) as [y|e]; [|reflexivity]. simpl.
  destruct (get_image_features m y) as [t|e]; reflexivity.
Qed.

Lemma generated_globals (w w' : world) (image : PILImage) :
  same_globals w w' -> generated w image = generated w' image.
Proof.
  intros (Hm & Hp & Hd). run. rewrite <- Hm, <- Hp.
  destruct (model w) as [m|]; [|reflexivity].
  destruct (processor w) as [p|]; [|reflexivity]. simpl. rewrite <- Hd.
  destruct (processor_call p image) as [x|e]; [|reflexivity]. simpl.
  destruct (BatchFeature_to x (device w)) as [y|e]; [|reflexivity]. simpl.
  destruct (get_image_features m y) as [t|e]; reflexivity.
Qed.

(** The readiness guard of [generate_embedding]. *)
Lemma generated_not_ready (w : world) (image : PILImage) :
  model w = None \/ processor w = None ->
  generated w image = Raised (Exn RuntimeError "Model not loaded").
Proof.
  intros [H|H]; run; rewrite H; [reflexivity|].
  now destruct (model w).
Qed.

(** What an item yields, from its two steps. *)
Lemma embed_item_steps (w : world) (r : EmbeddingRequest) :
  embed_item w r =
  match decode_image (image_base64 r) with
  | Ok image =>
      match generated w image with
      | Ok v => Ok {| resp_image_id := image_id r; embedding := v;
                      dimension := length v |}
      | Raised e => Raised e
      end
  | Raised e => Raised e
  end.
Proof.
  unfold embed_item, bind, call, ret.
  destruct (decode_image (image_base64 r)) as [image|e]; [|reflexivity].
  rewrite generate_embedding_reads. now destruct (generated w image).
Qed.

Lemma embed_item_globals (w w' : world) (r : EmbeddingRequest) :
  same_globals w w' -> embed_item w r = embed_item w' r.
Proof.
  intros H. rewrite !embed_item_steps.
  destruct (decode_image (image_base64 r)) as [image|e]; [|reflexivity].
  now rewrite (generated_globals w w' image H).
Qed.

Lemma embed_item_not_ready (w : world) (r : EmbeddingRequest) :
  model w = None \/ processor w = None -> succeeds w r = false.
Proof.
  intros H. unfold succeeds. rewrite embed_item_steps.
  destruct (decode_image (image_base64 r)) as [image|e]; [|reflexivity].
  now rewrite (generated_not_ready w image H).
Qed.

Lemma logged_globals (w : world) (msg : string) : same_globals w (logged w msg).
Proof. now repeat split. Qed.

(** [create_embedding], by the outcome of the item. *)
Lemma create_embedding_run (r : EmbeddingRequest) (w : world) :
  create_embedding r w =
  match embed_item w r with
  | Ok resp => (Ok resp, w)
  | Raised e =>
      if isinstance_ValueError e
      then (Raised (HTTPException 400 (str e)), w)
      else (Raised (HTTPException 500 ("Embedding generation failed: " ++ str e)),
            logged w ("Error generating embedding: " ++ str e))
  end.
Proof.
  rewrite embed_item_steps.
  unfold create_embedding, try_except, bind, call, ret, raise, logger.
  destruct (decode_image (image_base64 r)) as [image|e].
  - rewrite generate_embedding_reads.
    destruct (generated w image) as [v|e]; [reflexivity|].
    now destruct (isinstance_ValueError e).
  - now destruct (isinstance_ValueError e).
Qed.

(** One turn of the batch loop, by the outcome of the item. *)
Lemma batch_step_run (results : list EmbeddingResponse) (r : EmbeddingRequest)
    (w : world) :
  batch_step results r w =
  match embed_item w r with
  | Ok resp => (Ok (results ++ [resp]), w)
  | Raised e =>
      (Ok results,
       logged w ("Error processing image " ++ format_optional (image_id r)
                 ++ ": " ++ str e))
  end.
Proof.
  rewrite embed_item_steps.
  unfold batch_step, try_except, bind, call, ret, raise, logger.
  destruct (decode_image (image_base64 r)) as [image|e]; [|reflexivity].
  rewrite generate_embedding_reads.
  now destruct (generated w image) as [v|e].
Qed.

End HandlerProperties.

(** ** The batch loop *)

Section BatchProperties.
Context {P : Platform}.

Lemma successes_globals (w w' : world) (rs : list EmbeddingRequest) :
  same_globals w w' -> successes w rs = successes w' rs.
Proof.
  intros H. unfold successes.
  induction rs as [|r rs IH]; cbn [flat_map]; [reflexivity|].
  now rewrite IH, (embed_item_globals w w' r H).
Qed.

Lemma successes_app (w : world) (rs rs' : list EmbeddingRequest) :
  successes w (rs ++ rs') = successes w rs ++ successes w rs'.
Proof. unfold successes. apply flat_map_app. Qed.

Lemma successes_cons_failed (w : world) (r : EmbeddingRequest)
    (rs : list EmbeddingRequest) :
  succeeds w r = false -> successes w (r :: rs) = successes w rs.
Proof.
  unfold succeeds, successes. cbn [flat_map]. now destruct (embed_item w r).
Qed.

Lemma successes_cons_ok (w : world) (r : EmbeddingRequest)
    (rs : list EmbeddingRequest) (x : EmbeddingResponse) :
  embed_item w r = Ok x -> successes w (r :: rs) = x :: successes w rs.
Proof. intros H. unfold successes. cbn [flat_map]. now rewrite H. Qed.

Lemma successes_length (w : world) (rs : list EmbeddingRequest) :
  length (successes w rs) <= length rs.
Proof.
  induction rs as [|r rs IH]; [unfold successes; simpl; lia|].
  unfold successes in *. cbn [flat_map length].
  destruct (embed_item w r); simpl; lia.
Qed.

(** The results are the outcomes of the items that succeed, one for one and
    in their order. *)
Lemma successes_filter (w : world) (rs : list EmbeddingRequest) :
  Forall2 (fun r x => embed_item w r = Ok x) (filter (succeeds w) rs) (successes w rs).
Proof.
  induction rs as [|r rs IH]; simpl; [constructor|].
  unfold succeeds at 1. destruct (embed_item w r) as [x|e] eqn:E; simpl.
  - rewrite (successes_cons_ok w r rs x E). now constructor.
  - rewrite successes_cons_failed; [exact IH|]. unfold succeeds. now rewrite E.
Qed.

Lemma filter_all (A : Type) (f : A -> bool) (l : list A) :
  forallb f l = true -> filter f l = l.
Proof.
  induction l as [|a l IH]; simpl; [reflexivity|].
  destruct (f a); simpl; [|discriminate]. intros H. now rewrite IH.
Qed.

Lemma filter_none (A : Type) (f : A -> bool) (l : list A) :
  (forall a, f a = false) -> filter f l = [].
Proof.
  intros H. induction l as [|a l IH]; simpl; [reflexivity|]. now rewrite H.
Qed.

Lemma successes_in (w : world) (rs : list EmbeddingRequest) (x : EmbeddingResponse) :
  In x (successes w rs) -> exists r, In r rs /\ embed_item w r = Ok x.
Proof.
  induction rs as [|r rs IH]; simpl; [contradiction|].
  destruct (embed_item w r) as [y|e] eqn:E.
  - rewrite (successes_cons_ok w r rs y E). intros [<-|H].
    + exists r. now split; [left|].
    + destruct (IH H) as (r' & Hin & Hr'). exists r'. now split; [right|].
  - rewrite successes_cons_failed by (unfold succeeds; now rewrite E).
    intros H. destruct (IH H) as (r' & Hin & Hr'). exists r'. now split; [right|].
Qed.

Lemma embed_item_echo (w : world) (r : EmbeddingRequest) (x : EmbeddingResponse) :
  embed_item w r = Ok x ->
  resp_image_id x = image_id r /\ dimension x = length (embedding x).
Proof.
  rewrite embed_item_steps.
  destruct (decode_image (image_base64 r)) as [image|e]; [|discriminate].
  destruct (generated w image) as [v|e]; [|discriminate].
  intros [= <-]. now split.
Qed.

Lemma Forall2_echo (w : world) (rs : list EmbeddingRequest)
    (xs : list EmbeddingResponse) :
  Forall2 (fun r x => embed_item w r = Ok x) rs xs ->
  map resp_image_id xs = map image_id rs.
Proof.
  induction 1 as [|r x rs xs H _ IH]; simpl; [reflexivity|].
  now rewrite IH, (proj1 (embed_item_echo w r x H)).
Qed.

(** The loop never raises: it ends with the successes appended to what it
    started from, in a world that differs by log records only. *)
Lemma for_each_batch_step (rs : list EmbeddingRequest) :
  forall (acc : list EmbeddingResponse) (w : world),
  exists w',
    for_each rs batch_step acc w = (Ok (acc ++ successes w rs), w')
    /\ same_globals w w'.
Proof.
  induction rs as [|r rs IH]; intros acc w; simpl.
  - exists w. unfold ret, successes. simpl. rewrite app_nil_r.
    split; [reflexivity | apply same_globals_refl].
  - unfold bind. rewrite batch_step_run.
    destruct (embed_item w r) as [x|e] eqn:E.
    + destruct (IH (acc ++ [x]) w) as (w' & Hrun & Hg). exists w'.
      rewrite Hrun, (successes_cons_ok w r rs x E), <- app_assoc. now split.
    + set (w1 := logged w _).
      destruct (IH acc w1) as (w' & Hrun & Hg). exists w'.
      rewrite Hrun, successes_cons_failed by (unfold succeeds; now rewrite E).
      rewrite (successes_globals w w1 rs (logged_globals w _)).
      split; [reflexivity|].
      exact (same_globals_trans w w1 w' (logged_globals w _) Hg).
Qed.

Lemma create_batch_embeddings_run (b : BatchEmbeddingRequest) (w : world) :
  exists w',
    create_batch_embeddings b w = (Ok {| embeddings := successes w (images b) |}, w')
    /\ same_globals w w'.
Proof.
  destruct (for_each_batch_step (images b) [] w) as (w' & Hrun & Hg).
  exists w'. unfold create_batch_embeddings, bind. rewrite Hrun. now split.
Qed.

End BatchProperties.

(** ** Properties of the endpoints *)

Section Claims.
Context {P : Platform}.

Lemma flatten_normalize_single (row : list float) :
  length (flatten (normalize [row])) = length row.
Proof.
  unfold flatten, normalize. simpl. now rewrite app_nil_r, length_map.
Qed.

(** What [generate_embedding] returns is the features of the model, each
    row divided by its norm, laid out in one list.  The arithmetic of the
    division and of the norm is the platform's. *)
Lemma generated_is_normalized (w : world) (image : PILImage) (v : list float) :
  generated w image = Ok v ->
  exists m p x y t,
    model w = Some m /\ processor w = Some p
    /\ processor_call p image = Ok x
    /\ BatchFeature_to x (device w) = Ok y
    /\ get_image_features m y = Ok t
    /\ v = flatten (normalize t).
Proof.
  run.
  destruct (model w) as [m|]; [|discriminate].
  destruct (processor w) as [p|]; [|discriminate]. simpl.
  destruct (processor_call p image) as [x|e] eqn:Hx; [|discriminate]. simpl.
  destruct (BatchFeature_to x (device w)) as [y|e] eqn:Hy; [|discriminate]. simpl.
  destruct (get_image_features m y) as [t|e] eqn:Ht; [|discriminate]. simpl.
  intros [= <-]. exists m, p, x, y, t. now repeat split.
Qed.

(** A vector that [generate_embedding] returns has the length of the single
    row of features the model gave. *)
Lemma generated_length (w : world) (image : PILImage) (v : list float) :
  (forall m x t, get_image_features m x = Ok t ->
                 exists row, t = [row] /\ length row = 512) ->
  generated w image = Ok v -> length v = 512.
Proof.
  intros Hshape. run.
  destruct (model w) as [m|]; [|discriminate].
  destruct (processor w) as [p|]; [|discriminate]. simpl.
  destruct (processor_call p image) as [x|e]; [|discriminate]. simpl.
  destruct (BatchFeature_to x (device w)) as [y|e]; [|discriminate]. simpl.
  destruct (get_image_features m y) as [t|e] eqn:Ht; [|discriminate]. simpl.
  destruct (Hshape m y t Ht) as (row & -> & Hlen).
  intros [= <-]. rewrite <- Hlen. apply flatten_normalize_single.
Qed.

Lemma embed_item_dimension (w : world) (r : EmbeddingRequest) (x : EmbeddingResponse) :
  (forall m x t, get_image_features m x = Ok t ->
                 exists row, t = [row] /\ length row = 512) ->
  embed_item w r = Ok x ->
  dimension x = length (embedding x) /\ length (embedding x) = 512.
Proof.
  intros Hshape. rewrite embed_item_steps.
  destruct (decode_image (image_base64 r)) as [image|e]; [|discriminate].
  destruct (generated w image) as [v|e] eqn:G; [|discriminate].
  intros [= <-]. simpl. split; [reflexivity|].
  exact (generated_length w image v Hshape G).
Qed.

(** C2. The model gives, for the one image of a call, one row of 512
    features.  Then every response of [create_embedding], and every entry of
    a response of [create_batch_embeddings], has [dimension] equal to the
    length of [embedding], and both are 512. *)
Theorem dimension_is_vector_length_512 (w : world) :
  (forall m x t, get_image_features m x = Ok t ->
                 exists row, t = [row] /\ length row = 512) ->
  (forall r resp w',
      create_embedding r w = (Ok resp, w') ->
      dimension resp = length (embedding resp) /\ length (embedding resp) = 512)
  /\ (forall b resp w',
         create_batch_embeddings b w = (Ok resp, w') ->
         Forall (fun x => dimension x = length (embedding x)
                          /\ length (embedding x) = 512) (embeddings resp)).
Proof.
  intros Hshape. split.
  - intros r resp w'. rewrite create_embedding_run.
    destruct (embed_item w r) as [x|e] eqn:E.
    + intros [= <- _]. exact (embed_item_dimension w r x Hshape E).
    + destruct (isinstance_ValueError e); discriminate.
  - intros b resp w' H.
    destruct (create_batch_embeddings_run b w) as (w1 & Hrun & _).
    rewrite Hrun in H. injection H as <- _. simpl.
    apply Forall_forall. intros x Hx.
    destruct (successes_in w (images b) x Hx) as (r & _ & Hr).
    exact (embed_item_dimension w r x Hshape Hr).
Qed.

(** C5. While [model] or [processor] is still [None], [generate_embedding]
    raises [RuntimeError("Model not loaded")] for every image, returns no
    vector and leaves the globals as they are. *)
Theorem generate_embedding_model_not_ready (w : world) (image : PILImage) :
  model w = None \/ processor w = None ->
  generate_embedding image w = (Raised (Exn RuntimeError "Model not loaded"), w)
  /\ (forall v, fst (generate_embedding image w) <> Ok v).
Proof.
  intros H. rewrite generate_embedding_reads, (generated_not_ready w image H).
  split; [reflexivity | discriminate].
Qed.

(** C9 (as the code has it). [create_embedding] answers a decode failure
    with 400 and the decode message.  When the image decodes, a vector gives
    the response with the request's [image_id], the vector and its length; an
    exception of [generate_embedding] gives 400 when it is a [ValueError]
    and 500 otherwise; the not-ready [RuntimeError] gives 500. *)
Theorem create_embedding_status_by_exception_class (w : world) (r : EmbeddingRequest) :
  (forall e, decode_failure (image_base64 r) e ->
     create_embedding r w =
     (Raised (HTTPException 400 ("Failed to decode image: " ++ str e)), w))
  /\ (forall image, decode_image (image_base64 r) = Ok image ->
        (forall v, generated w image = Ok v ->
           create_embedding r w =
           (Ok {| resp_image_id := image_id r; embedding := v;
                  dimension := length v |}, w))
        /\ (forall e, generated w image = Raised e ->
              isinstance_ValueError e = true ->
              create_embedding r w = (Raised (HTTPException 400 (str e)), w))
        /\ (forall e, generated w image = Raised e ->
              isinstance_ValueError e = false ->
              fst (create_embedding r w) =
              Raised (HTTPException 500 ("Embedding generation failed: " ++ str e)))
        /\ (model w = None \/ processor w = None ->
              http_status (fst (create_embedding r w)) = 500)).
Proof.
  split.
  - intros e He. rewrite create_embedding_run, embed_item_steps.
    now rewrite (decode_failure_raises _ e He).
  - intros image Hi. rewrite create_embedding_run, embed_item_steps, Hi.
    repeat split.
    + intros v ->. reflexivity.
    + intros e -> ->. reflexivity.
    + intros e -> ->. reflexivity.
    + intros H. now rewrite (generated_not_ready w image H).
Qed.

(** C10. With [model] or [processor] still [None], [create_batch_embeddings]
    raises nothing for any batch: it returns a response (status 200) whose
    [embeddings] is empty, and the globals are as before. *)
Theorem batch_before_load_is_empty_200 (w : world) (b : BatchEmbeddingRequest) :
  model w = None \/ processor w = None ->
  exists w',
    create_batch_embeddings b w = (Ok {| embeddings := [] |}, w')
    /\ http_status (fst (create_batch_embeddings b w)) = 200
    /\ same_globals w w'.
Proof.
  intros H. destruct (create_batch_embeddings_run b w) as (w' & Hrun & Hg).
  exists w'. rewrite Hrun. simpl.
  assert (E : successes w (images b) = []).
  { pose proof (successes_filter w (images b)) as F.
    rewrite (filter_none _ (succeeds w) (images b)) in F
      by (intros r; exact (embed_item_not_ready w r H)).
    now inversion F. }
  rewrite E. split; [reflexivity | split; [reflexivity | exact Hg]].
Qed.

End Claims.

Section BatchClaims.
Context {P : Platform}.

Lemma successes_all (w : world) (rs : list EmbeddingRequest) :
  forallb (succeeds w) rs = true ->
  Forall2 (fun r x => embed_item w r = Ok x) rs (successes w rs).
Proof.
  intros H. pose proof (successes_filter w rs) as F.
  now rewrite (filter_all _ (succeeds w) rs H) in F.
Qed.

Lemma Forall2_same_length (A B : Type) (R : A -> B -> Prop) (l : list A) (l' : list B) :
  Forall2 R l l' -> length l = length l'.
Proof. induction 1; simpl; congruence. Qed.

(** C6. [create_batch_embeddings] never raises.  Its response holds exactly
    the outcomes of the items that succeed: an item whose decoding or
    generation raises adds nothing and the loop goes on with the next item.
    So the response is no longer than the request, every entry comes from an
    item of the request that succeeds, and when one item fails and all the
    others succeed the response has one entry less than the request, namely
    the outcomes of the others. *)
Theorem batch_skips_failed_items (w : world) (b : BatchEmbeddingRequest) :
  exists w',
    create_batch_embeddings b w = (Ok {| embeddings := successes w (images b) |}, w')
    /\ same_globals w w'
    /\ length (successes w (images b)) <= length (images b)
    /\ (forall x, In x (successes w (images b)) ->
                  exists r, In r (images b) /\ embed_item w r = Ok x)
    /\ (forall before bad after,
           images b = before ++ bad :: after ->
           succeeds w bad = false ->
           forallb (succeeds w) (before ++ after) = true ->
           length (successes w (images b)) = length (images b) - 1
           /\ Forall2 (fun r x => embed_item w r = Ok x)
                      (before ++ after) (successes w (images b))).
Proof.
  destruct (create_batch_embeddings_run b w) as (w' & Hrun & Hg).
  exists w'. split; [exact Hrun|]. split; [exact Hg|].
  split; [apply successes_length|]. split; [apply successes_in|].
  intros before bad after Hb Hbad Hrest.
  assert (E : successes w (images b) = successes w (before ++ after)).
  { rewrite Hb, !successes_app. now rewrite (successes_cons_failed w bad after Hbad). }
  pose proof (successes_all w (before ++ after) Hrest) as F.
  rewrite E. split; [|exact F].
  rewrite <- (Forall2_same_length _ _ _ _ _ F), Hb, !length_app. simpl. lia.
Qed.

(** C7. The entries of the response are the outcomes of the items that
    succeed, taken in the order of the request, and each carries the
    [image_id] of its item; for a request [[a; bad; c]] where [a] and [c]
    succeed and [bad] fails, the response is the outcome of [a] followed by
    the outcome of [c]. *)
Theorem batch_keeps_input_order (w : world) (b : BatchEmbeddingRequest) :
  exists resp w',
    create_batch_embeddings b w = (Ok resp, w')
    /\ Forall2 (fun r x => embed_item w r = Ok x)
               (filter (succeeds w) (images b)) (embeddings resp)
    /\ map resp_image_id (embeddings resp)
       = map image_id (filter (succeeds w) (images b))
    /\ (forall a bad c xa xc,
           images b = [a; bad; c] ->
           embed_item w a = Ok xa ->
           succeeds w bad = false ->
           embed_item w c = Ok xc ->
           embeddings resp = [xa; xc]).
Proof.
  destruct (create_batch_embeddings_run b w) as (w' & Hrun & Hg).
  exists {| embeddings := successes w (images b) |}, w'.
  split; [exact Hrun|]. simpl.
  pose proof (successes_filter w (images b)) as F.
  split; [exact F|]. split; [exact (Forall2_echo w _ _ F)|].
  intros a bad c xa xc -> Ha Hbad Hc.
  rewrite (successes_cons_ok w a _ xa Ha), (successes_cons_failed w bad _ Hbad).
  now rewrite (successes_cons_ok w c _ xc Hc).
Qed.

End BatchClaims.

(** ** Start-up and the health endpoint *)

Section HealthClaims.
Context {P : Platform}.

Lemma health_check_run (w : world) :
  health_check w =
  (Ok {| status := "healthy";
         model_loaded := match model w with Some _ => true | None => false end;
         health_device := device w |}, w).
Proof. reflexivity. Qed.

(** No handler assigns [model], [processor] or [device]. *)
Lemma handle_globals (rq : request) (w : world) : same_globals w (handle rq w).
Proof.
  destruct rq as [|body|body]; simpl.
  - apply same_globals_refl.
  - rewrite create_embedding_run. destruct (embed_item w body) as [x|e]; simpl.
    + apply same_globals_refl.
    + destruct (isinstance_ValueError e); simpl;
        [apply same_globals_refl | apply logged_globals].
  - destruct (create_batch_embeddings_run body w) as (w' & -> & Hg). exact Hg.
Qed.

Lemma serve_globals (rqs : list request) :
  forall w, same_globals w (serve rqs w).
Proof.
  induction rqs as [|rq rqs IH]; intros w; simpl.
  - apply same_globals_refl.
  - exact (same_globals_trans _ _ _ (handle_globals rq w) (IH (handle rq w))).
Qed.

(** A start-up that reaches its [yield] has set all three globals. *)
Lemma lifespan_startup_loaded (w0 w1 : world) :
  lifespan_startup w0 = (Ok tt, w1) ->
  (exists m, model w1 = Some m)
  /\ (exists p, processor w1 = Some p)
  /\ device w1 = (if torch_cuda_is_available then "cuda" else "cpu").
Proof.
  unfold lifespan_startup, bind, call, logger, set_device, get_device,
    set_model, set_processor, get_model, raise. simpl.
  destruct (CLIPModel_from_pretrained model_name) as [m|e]; [|discriminate].
  destruct (Module_to m _) as [m'|e]; [|discriminate].
  destruct (CLIPProcessor_from_pretrained model_name) as [p|e]; [|discriminate].
  intros [= <-]. simpl. repeat split; eauto.
Qed.

(** C8. Before [lifespan] has run, and in any state where [model] is
    [None], [health_check] reports [model_loaded = false].  Once [lifespan]
    has reached its [yield], [health_check] reports [model_loaded = true] and
    the device ["cuda"] when CUDA was available during start-up and ["cpu"]
    otherwise, and it reports the same after any sequence of requests. *)
Theorem health_reports_load_and_device (w1 : world) :
  lifespan_startup initial_world = (Ok tt, w1) ->
  fst (health_check initial_world) =
    Ok {| status := "healthy"; model_loaded := false; health_device := "cpu" |}
  /\ (forall w, model w = None ->
        fst (health_check w) =
        Ok {| status := "healthy"; model_loaded := false; health_device := device w |})
  /\ (forall rqs,
        fst (health_check (serve rqs w1)) =
        Ok {| status := "healthy"; model_loaded := true;
              health_device := if torch_cuda_is_available then "cuda" else "cpu" |})
  /\ (forall rqs, device (serve rqs w1) = "cuda" \/ device (serve rqs w1) = "cpu").
Proof.
  intros H. destruct (lifespan_startup_loaded _ _ H) as ([m Hm] & _ & Hd).
  split; [reflexivity|]. split.
  { intros w Hw. rewrite health_check_run. simpl. now rewrite Hw. }
  assert (G : forall rqs, model (serve rqs w1) = Some m
                          /\ device (serve rqs w1)
                             = if torch_cuda_is_available then "cuda" else "cpu").
  { intros rqs. destruct (serve_globals rqs w1) as (A & _ & C).
    split; congruence. }
  split.
  - intros rqs. destruct (G rqs) as [A C].
    rewrite health_check_run. simpl. now rewrite A, C.
  - intros rqs. destruct (G rqs) as [_ ->].
    destruct torch_cuda_is_available; [now left | now right].
Qed.

End HealthClaims.

(** ** The theorems at work on the test doubles *)

Module Runs.
Import Stub.

Lemma accepting_shape :
  forall m x t, @get_image_features accepting m x = Ok t ->
                exists row, t = [row] /\ length row = 512.
Proof. intros m x t [= <-]. eexists. split; reflexivity. Defined.

Lemma dimension_is_vector_length_512_run :
  exists resp w',
    @create_embedding accepting validA ready = (Ok resp, w')
    /\ dimension resp = length (embedding resp)
    /\ length (embedding resp) = 512.
Proof.
  eexists _, _. split; [reflexivity|].
  exact (proj1 (dimension_is_vector_length_512 ready accepting_shape) validA _ _ eq_refl).
Defined.


Lemma decode_image_strips_header_run :
  str_contains comma "data:image/png;base64,iVBORw==" = true
  /\ b64_payload "data:image/png;base64,iVBORw==" = Ok "iVBORw=="
  /\ @decode_image accepting "data:image/png;base64,iVBORw=="
     = @decode_image accepting "iVBORw==".
Proof.
  split; [reflexivity|].
  destruct (@decode_image_strips_header accepting
              "data:image/png;base64,iVBORw==" eq_refl) as (A & _ & C).
  split; [exact A|].
  exact (C "data:image/png;base64" "iVBORw==" eq_refl eq_refl eq_refl).
Defined.

Lemma generate_embedding_model_not_ready_run :
  (model (@initial_world accepting) = None \/ processor (@initial_world accepting) = None)
  /\ @generate_embedding accepting signature initial_world
     = (Raised (Exn RuntimeError "Model not loaded"), initial_world).
Proof.
  split; [now left|].
  exact (proj1 (@generate_embedding_model_not_ready accepting initial_world signature
                  (or_introl eq_refl))).
Defined.

Lemma batch_before_load_is_empty_200_run :
  model (@initial_world accepting) = None
  /\ exists w',
       @create_batch_embeddings accepting {| images := [validA; corruptB; validC] |}
         initial_world = (Ok {| embeddings := [] |}, w')
       /\ http_status (fst (@create_batch_embeddings accepting
                              {| images := [validA; corruptB; validC] |} initial_world))
          = 200.
Proof.
  split; [reflexivity|].
  destruct (@batch_before_load_is_empty_200 accepting initial_world
              {| images := [validA; corruptB; validC] |} (or_introl eq_refl))
    as (w' & A & B & _).
  exists w'. now split.
Defined.

Lemma batch_skips_failed_items_run :
  succeeds ready corruptB = false
  /\ forallb (succeeds ready) [validA; validC] = true
  /\ exists w',
       @create_batch_embeddings accepting {| images := [validA; corruptB; validC] |} ready
       = (Ok {| embeddings := successes ready [validA; corruptB; validC] |}, w')
       /\ length (successes ready [validA; corruptB; validC]) = 2.
Proof.
  split; [reflexivity|]. split; [reflexivity|].
  destruct (@batch_skips_failed_items accepting ready
              {| images := [validA; corruptB; validC] |})
    as (w' & A & _ & _ & _ & E).
  exists w'. split; [exact A|].
  exact (proj1 (E [validA] corruptB [validC] eq_refl eq_refl eq_refl)).
Defined.

Lemma batch_keeps_input_order_run :
  exists resp w' xa xc,
    @create_batch_embeddings accepting {| images := [validA; corruptB; validC] |} ready
    = (Ok resp, w')
    /\ embed_item ready validA = Ok xa
    /\ embed_item ready validC = Ok xc
    /\ embeddings resp = [xa; xc]
    /\ map resp_image_id (embeddings resp) = [Some "A"; Some "C"].
Proof.
  destruct (@batch_keeps_input_order accepting ready
              {| images := [validA; corruptB; validC] |})
    as (resp & w' & A & _ & Ids & E).
  exists resp, w'. eexists _, _.
  split; [exact A|]. split; [reflexivity|]. split; [reflexivity|].
  split; [exact (E validA corruptB validC _ _ eq_refl eq_refl eq_refl eq_refl)|].
  exact Ids.
Defined.

Lemma health_reports_load_and_device_run :
  @lifespan_startup accepting initial_world
  = (Ok tt, snd (@lifespan_startup accepting initial_world))
  /\ fst (@health_check accepting
            (serve [GET_health; POST_embed corruptB; POST_embed validA]
                   (snd (@lifespan_startup accepting initial_world))))
     = Ok {| status := "healthy"; model_loaded := true; health_device := "cpu" |}.
Proof.
  split; [reflexivity|].
  destruct (@health_reports_load_and_device accepting
              (snd (@lifespan_startup accepting initial_world)) eq_refl)
    as (_ & _ & A & _).
  exact (A [GET_health; POST_embed corruptB; POST_embed validA]).
Defined.

Lemma create_embedding_status_by_exception_class_run :
  @decode_image accepting (image_base64 validA) = Ok signature
  /\ (exists v, generated ready signature = Ok v
               /\ @create_embedding accepting validA ready
                  = (Ok {| resp_image_id := Some "A"; embedding := v;
                           dimension := length v |}, ready))
  /\ @create_embedding accepting corruptB ready
     = (Raised (HTTPException 400 "Failed to decode image: cannot identify image file"),
        ready)
  /\ http_status (fst (@create_embedding accepting validA initial_world)) = 500.
Proof.
  split; [reflexivity|].
  destruct (@create_embedding_status_by_exception_class accepting ready validA)
    as (_ & S).
  destruct (S signature eq_refl) as (Sok & _).
  split; [eexists; split; [reflexivity | exact (Sok _ eq_refl)]|].
  split.
  - apply (proj1 (@create_embedding_status_by_exception_class accepting ready corruptB)
             (Exn UnidentifiedImageError "cannot identify image file")).
    eapply bad_image; reflexivity.
  - destruct (@create_embedding_status_by_exception_class accepting
                initial_world validA) as (_ & S0).
    destruct (S0 signature eq_refl) as (_ & _ & _ & N).
    exact (N (or_introl eq_refl)).
Defined.

(** C9, as stated, fails when preprocessing raises a [ValueError]: the image
    decodes, [generate_embedding] raises, and [create_embedding] answers 400,
    the status of a decode error, not 500. *)
Lemma preprocessing_ValueError_is_answered_400 :
  @decode_image rejecting (image_base64 validA) = Ok signature
  /\ generated ready_rejecting signature
     = Raised (Exn ValueError "Unable to infer channel dimension format")
  /\ @create_embedding rejecting validA ready_rejecting
     = (Raised (HTTPException 400 "Unable to infer channel dimension format"),
        ready_rejecting)
  /\ http_status (fst (@create_embedding rejecting validA ready_rejecting)) <> 500.
Proof. repeat split. discriminate. Qed.


End Runs.

(** ** Further properties of the decoder *)

Lemma up_to_first_clean (sep : ascii) (s : string) :
  str_contains sep (up_to_first sep s) = false.
Proof.
  induction s as [|a s IH]; simpl; [reflexivity|].
  destruct (Ascii.eqb a sep) eqn:E; simpl; [reflexivity|]. now rewrite E.
Qed.

Lemma up_to_first_app (sep : ascii) (h t : string) :
  str_contains sep h = false -> up_to_first sep (h ++ String sep t) = h.
Proof.
  induction h as [|a h IH]; simpl.
  - now rewrite Ascii.eqb_refl.
  - destruct (Ascii.eqb a sep); [discriminate|]. intros H. now rewrite (IH H).
Qed.

(** X2. Stripping the header never raises: index [1] of the split is in
    range whenever the input has a comma.  The text that reaches
    [base64.b64decode] never contains a comma, and it is the whole input when
    the input has none. *)
Theorem b64_payload_is_separator_free (s : string) :
  exists payload,
    b64_payload s = Ok payload
    /\ str_contains comma payload = false
    /\ (str_contains comma s = false -> payload = s)
    /\ (str_contains comma s = true -> 2 <= length (split comma s)).
Proof.
  destruct (str_contains comma s) eqn:H.
  - exists (up_to_first comma (strip_to_first comma s)).
    split; [now apply b64_payload_with_sep|].
    split; [apply up_to_first_clean|]. split; [discriminate|].
    intros _. rewrite (split_contains comma s H).
    destruct (split_shape comma (strip_to_first comma s)) as [ws ->]. simpl. lia.
  - exists s. split; [now apply b64_payload_without_sep|].
    split; [exact H|]. split; [reflexivity | discriminate].
Qed.

Section DecodeFurther.
Context {P : Platform}.

(** X3. Whatever follows a second comma is ignored: a comma-free header, a
    comma, comma-free data, a comma and any further text decode to what the
    data alone decodes to. *)
Theorem decode_image_ignores_text_after_second_separator
    (header data rest : string) :
  str_contains comma header = false ->
  str_contains comma data = false ->
  decode_image (header ++ String comma (data ++ String comma rest))
  = decode_image data.
Proof.
  intros Hh Hd. apply decode_image_payload.
  rewrite (b64_payload_with_sep _ (str_contains_app comma header _)).
  rewrite (strip_to_first_app comma header _ Hh).
  rewrite (up_to_first_app comma data rest Hd).
  symmetry. now apply b64_payload_without_sep.
Qed.

End DecodeFurther.

(** ** Further properties of the handlers *)

Section HandlersFurther.
Context {P : Platform}.

Lemma with_log_nil (w : world) : with_log w [] = w.
Proof. destruct w. unfold with_log. simpl. now rewrite app_nil_r. Qed.

Lemma with_log_app (w : world) (xs ys : list (log_level * string)) :
  with_log (with_log w xs) ys = with_log w (xs ++ ys).
Proof. unfold with_log. simpl. now rewrite app_assoc. Qed.

Lemma with_log_globals (w : world) (xs : list (log_level * string)) :
  same_globals w (with_log w xs).
Proof. now repeat split. Qed.

Lemma failure_records_globals (w w' : world) (rs : list EmbeddingRequest) :
  same_globals w w' -> failure_records w rs = failure_records w' rs.
Proof.
  intros H. unfold failure_records.
  induction rs as [|r rs IH]; cbn [flat_map]; [reflexivity|].
  now rewrite IH, (embed_item_globals w w' r H).
Qed.

Lemma failure_records_app (w : world) (rs rs' : list EmbeddingRequest) :
  failure_records w (rs ++ rs') = failure_records w rs ++ failure_records w rs'.
Proof. unfold failure_records. apply flat_map_app. Qed.

(** Every item is either in the results or in the log. *)
Lemma successes_and_failures (w : world) (rs : list EmbeddingRequest) :
  length (successes w rs) + length (failure_records w rs) = length rs.
Proof.
  unfold successes, failure_records.
  induction rs as [|r rs IH]; cbn [flat_map length]; [reflexivity|].
  destruct (embed_item w r); rewrite !length_app; simpl; lia.
Qed.

(** The loop, with the world it ends in. *)
Lemma for_each_batch_step_log (rs : list EmbeddingRequest) :
  forall (acc : list EmbeddingResponse) (w : world),
    for_each rs batch_step acc w
    = (Ok (acc ++ successes w rs), with_log w (failure_records w rs)).
Proof.
  induction rs as [|r rs IH]; intros acc w.
  - unfold successes, failure_records. simpl. unfold ret.
    now rewrite app_nil_r, with_log_nil.
  - cbn [for_each]. unfold bind. rewrite batch_step_run.
    unfold successes, failure_records. cbn [flat_map].
    fold (successes w rs). fold (failure_records w rs).
    destruct (embed_item w r) as [x|e] eqn:E.
    + rewrite IH. simpl. now rewrite <- app_assoc.
    + rewrite IH. simpl.
      rewrite (successes_globals _ w rs), (failure_records_globals _ w rs);
        try (now repeat split).
      unfold logged, with_log. simpl. now rewrite <- app_assoc.
Qed.

Lemma create_batch_embeddings_log (b : BatchEmbeddingRequest) (w : world) :
  create_batch_embeddings b w
  = (Ok {| embeddings := successes w (images b) |},
     with_log w (failure_records w (images b))).
Proof.
  unfold create_batch_embeddings, bind. now rewrite for_each_batch_step_log.
Qed.

(** X4. [create_embedding] lets no exception out but an [HTTPException] with
    status 400 or 500.  A response and a 400 leave the world untouched; a
    500 adds exactly one ERROR record, which quotes the exception. *)
Theorem create_embedding_outcomes (r : EmbeddingRequest) (w : world) :
  match create_embedding r w with
  | (Ok resp, w') => w' = w /\ embed_item w r = Ok resp
  | (Raised (HTTPException c d), w') =>
      exists e, embed_item w r = Raised e
        /\ ((c = 400 /\ isinstance_ValueError e = true /\ d = str e /\ w' = w)
            \/ (c = 500 /\ isinstance_ValueError e = false
                /\ d = ("Embedding generation failed: " ++ str e)%string
                /\ w' = with_log w
                          [(ERROR, ("Error generating embedding: " ++ str e)%string)]))
  | (Raised (Exn _ _), _) => False
  end.
Proof.
  rewrite create_embedding_run.
  destruct (embed_item w r) as [x|e]; [now split|].
  destruct (isinstance_ValueError e) eqn:V; exists e; split; try reflexivity.
  - left. now repeat split.
  - right. now repeat split.
Qed.

(** X5. [create_batch_embeddings] writes one ERROR record for each item that
    fails, in the order of the request, naming the item's [image_id]
    (["None"] when it has none) and quoting the exception; it writes nothing
    else and leaves the globals as they are.  Results and records together
    account for every item. *)
Theorem batch_logs_each_failure (b : BatchEmbeddingRequest) (w : world) :
  create_batch_embeddings b w
  = (Ok {| embeddings := successes w (images b) |},
     {| model := model w; processor := processor w; device := device w;
        log := log w ++ failure_records w (images b) |})
  /\ length (successes w (images b)) + length (failure_records w (images b))
     = length (images b)
  /\ (forall r e rs, embed_item w r = Raised e ->
        failure_records w (r :: rs)
        = (ERROR, ("Error processing image " ++ format_optional (image_id r)
                   ++ ": " ++ str e)%string) :: failure_records w rs)
  /\ (forall r x rs, embed_item w r = Ok x ->
        failure_records w (r :: rs) = failure_records w rs).
Proof.
  split; [apply create_batch_embeddings_log|].
  split; [apply successes_and_failures|].
  split; intros r y rs H; unfold failure_records; cbn [flat_map]; now rewrite H.
Qed.

Lemma create_embedding_result (r : EmbeddingRequest) (w : world) :
  fst (create_embedding r w) =
  match embed_item w r with
  | Ok resp => Ok resp
  | Raised e =>
      if isinstance_ValueError e
      then Raised (HTTPException 400 (str e))
      else Raised (HTTPException 500 ("Embedding generation failed: " ++ str e))
  end.
Proof.
  rewrite create_embedding_run. destruct (embed_item w r) as [x|e]; [reflexivity|].
  now destruct (isinstance_ValueError e).
Qed.

(** X6. The batch endpoint returns, item by item, what the single endpoint
    returns: its entries are the responses [create_embedding] gives for the
    items it answers with 200, in the order of the request. *)
Theorem batch_agrees_with_single (b : BatchEmbeddingRequest) (w : world) :
  fst (create_batch_embeddings b w)
  = Ok {| embeddings :=
            flat_map (fun r => match fst (create_embedding r w) with
                               | Ok resp => [resp]
                               | Raised _ => []
                               end) (images b) |}.
Proof.
  rewrite create_batch_embeddings_log. simpl. do 2 f_equal.
  unfold successes. apply flat_map_ext. intros r.
  rewrite create_embedding_result. destruct (embed_item w r) as [x|e]; [reflexivity|].
  now destruct (isinstance_ValueError e).
Qed.

(** X7. One batch of [xs ++ ys] does what a batch of [xs] followed by a
    batch of [ys] does: the entries are those of the first followed by those
    of the second, and the world it ends in is the same. *)
Theorem batch_of_concatenation (xs ys : list EmbeddingRequest) (w : world) :
  let first := create_batch_embeddings {| images := xs |} w in
  let second := create_batch_embeddings {| images := ys |} (snd first) in
  exists r1 r2,
    fst first = Ok r1 /\ fst second = Ok r2
    /\ create_batch_embeddings {| images := xs ++ ys |} w
       = (Ok {| embeddings := embeddings r1 ++ embeddings r2 |}, snd second).
Proof.
  cbv zeta. rewrite !create_batch_embeddings_log. simpl.
  eexists _, _. split; [reflexivity|]. split; [reflexivity|]. simpl.
  set (w1 := with_log w (failure_records w xs)).
  rewrite (successes_globals w1 w ys), (failure_records_globals w1 w ys);
    try (now repeat split).
  unfold w1. now rewrite with_log_app, successes_app, failure_records_app.
Qed.

(** The outcome of each handler is a function of the three globals. *)
Lemma outcomes_globals (w w' : world) :
  same_globals w w' ->
  (forall r, fst (create_embedding r w) = fst (create_embedding r w'))
  /\ (forall b, fst (create_batch_embeddings b w) = fst (create_batch_embeddings b w'))
  /\ fst (health_check w) = fst (health_check w').
Proof.
  intros H. split; [|split].
  - intros r. now rewrite !create_embedding_result, (embed_item_globals w w' r H).
  - intros b. rewrite !create_batch_embeddings_log. simpl.
    now rewrite (successes_globals w w' (images b) H).
  - rewrite !health_check_run. simpl. destruct H as (-> & _ & ->). reflexivity.
Qed.

(** X8. The handlers keep no memory of earlier requests: after any sequence
    of requests each endpoint answers a request as it would have answered it
    before them. *)
Theorem outcomes_do_not_depend_on_history (rqs : list request) (w : world) :
  (forall r, fst (create_embedding r (serve rqs w)) = fst (create_embedding r w))
  /\ (forall b, fst (create_batch_embeddings b (serve rqs w))
                = fst (create_batch_embeddings b w))
  /\ fst (health_check (serve rqs w)) = fst (health_check w).
Proof.
  destruct (outcomes_globals w (serve rqs w) (serve_globals rqs w)) as (A & B & C).
  split; [|split]; [intros r; symmetry; apply A | intros b; symmetry; apply B | now symmetry].
Qed.

End HandlersFurther.

(** ** Further properties of start-up, shutdown and generation *)

Section LifecycleFurther.
Context {P : Platform}.

Ltac startup :=
  unfold lifespan_startup, bind, call, logger, set_device, get_device,
    set_model, set_processor, get_model, raise; simpl.

(** X10. When the model loads, moves to the chosen device and the processor
    loads, start-up reaches its [yield] from any state: [model] is the moved
    model put in evaluation mode, [processor] the loaded processor, [device]
    ["cuda"] if CUDA is available and ["cpu"] if not, and the log has three
    more INFO records. *)
Theorem lifespan_startup_succeeds (w0 : world) (m m' : CLIPModel) (p : CLIPProcessor) :
  CLIPModel_from_pretrained model_name = Ok m ->
  Module_to m (if torch_cuda_is_available then "cuda" else "cpu") = Ok m' ->
  CLIPProcessor_from_pretrained model_name = Ok p ->
  lifespan_startup w0
  = (Ok tt,
     {| model := Some (Module_eval m');
        processor := Some p;
        device := if torch_cuda_is_available then "cuda" else "cpu";
        log := log w0 ++ startup_records |}).
Proof.
  intros Hm Hto Hp. startup. rewrite Hm, Hto, Hp. simpl.
  unfold startup_records. now rewrite <- !app_assoc.
Qed.

(** X9. When loading the model, or moving it to the device, raises, start-up
    raises the same exception; [model] and [processor] are still [None], but
    [device] has already been assigned, and [health_check] reports
    [model_loaded = false] with that device. *)
Theorem lifespan_startup_without_model (e : exn) :
  (CLIPModel_from_pretrained model_name = Raised e
   \/ exists m, CLIPModel_from_pretrained model_name = Ok m
                /\ Module_to m (if torch_cuda_is_available then "cuda" else "cpu")
                   = Raised e) ->
  exists w,
    lifespan_startup initial_world = (Raised e, w)
    /\ model w = None /\ processor w = None
    /\ device w = (if torch_cuda_is_available then "cuda" else "cpu")
    /\ fst (health_check w)
       = Ok {| status := "healthy"; model_loaded := false;
               health_device := if torch_cuda_is_available then "cuda" else "cpu" |}.
Proof.
  intros [H | (m & Hm & Hto)]; startup.
  - rewrite H. eexists. split; [reflexivity|]. now repeat split.
  - rewrite Hm, Hto. eexists. split; [reflexivity|]. now repeat split.
Qed.

(** X11. When the model is loaded and moved but loading the processor
    raises, start-up raises the same exception and leaves [model] set (not
    yet in evaluation mode) and [processor] [None].  In that state
    [health_check] reports [model_loaded = true], yet [create_embedding]
    answers every request with an error and every batch comes back empty. *)
Theorem lifespan_startup_without_processor (e : exn) (m m' : CLIPModel) :
  CLIPModel_from_pretrained model_name = Ok m ->
  Module_to m (if torch_cuda_is_available then "cuda" else "cpu") = Ok m' ->
  CLIPProcessor_from_pretrained model_name = Raised e ->
  exists w,
    lifespan_startup initial_world = (Raised e, w)
    /\ model w = Some m' /\ processor w = None
    /\ fst (health_check w)
       = Ok {| status := "healthy"; model_loaded := true;
               health_device := if torch_cuda_is_available then "cuda" else "cpu" |}
    /\ (forall r, is_ok (fst (create_embedding r w)) = false)
    /\ (forall b, fst (create_batch_embeddings b w) = Ok {| embeddings := [] |}).
Proof.
  intros Hm Hto Hp. startup. rewrite Hm, Hto, Hp. simpl.
  eexists. split; [reflexivity|].
  set (w := {| model := Some m'; processor := None; device := _; log := _ |}).
  assert (N : model w = None \/ processor w = None) by now right.
  split; [reflexivity|]. split; [reflexivity|]. split; [reflexivity|].
  assert (F : forall r, exists e', embed_item w r = Raised e').
  { intros r. pose proof (embed_item_not_ready w r N) as H. unfold succeeds in H.
    destruct (embed_item w r) as [x|e']; [discriminate | now exists e']. }
  split.
  - intros r. rewrite create_embedding_result. destruct (F r) as [e' ->].
    now destruct (isinstance_ValueError e').
  - intros b. rewrite create_batch_embeddings_log. cbn [fst]. do 2 f_equal.
    unfold successes. induction (images b) as [|r rs IH]; cbn [flat_map]; [reflexivity|].
    destruct (F r) as [e' ->]. exact IH.
Qed.

(** X12. Shutdown releases nothing: it adds one INFO record and leaves
    [model], [processor] and [device] as they are, so every endpoint answers
    after it as before it. *)
Theorem lifespan_shutdown_releases_nothing (w : world) :
  lifespan_shutdown w = (Ok tt, with_log w [(INFO, "Shutting down CLIP service...")])
  /\ (forall r, fst (create_embedding r (snd (lifespan_shutdown w)))
                = fst (create_embedding r w))
  /\ (forall b, fst (create_batch_embeddings b (snd (lifespan_shutdown w)))
                = fst (create_batch_embeddings b w))
  /\ fst (health_check (snd (lifespan_shutdown w))) = fst (health_check w).
Proof.
  split; [reflexivity|].
  destruct (outcomes_globals w (snd (lifespan_shutdown w))) as (A & B & C);
    [now repeat split|].
  split; [|split]; [intros r; symmetry; apply A | intros b; symmetry; apply B | now symmetry].
Qed.

(** X13. After a start-up that reached its [yield] and any sequence of
    requests, a vector that [generate_embedding] returns is computed by the
    processor and the model that start-up stored, with the inputs moved to
    the device the model was moved to: it is the normalised, flattened
    output of that model on those inputs. *)
Theorem generation_uses_the_loaded_model_and_device (w1 : world) :
  lifespan_startup initial_world = (Ok tt, w1) ->
  exists m m' p,
    CLIPModel_from_pretrained model_name = Ok m
    /\ Module_to m (device w1) = Ok m'
    /\ CLIPProcessor_from_pretrained model_name = Ok p
    /\ forall rqs image v,
         generated (serve rqs w1) image = Ok v ->
         exists x y t,
           processor_call p image = Ok x
           /\ BatchFeature_to x (device w1) = Ok y
           /\ get_image_features (Module_eval m') y = Ok t
           /\ v = flatten (normalize t).
Proof.
  startup.
  destruct (CLIPModel_from_pretrained model_name) as [m|e]; [|discriminate].
  destruct (Module_to m _) as [m'|e] eqn:Hto; [|discriminate].
  destruct (CLIPProcessor_from_pretrained model_name) as [p|e]; [|discriminate].
  intros [= <-]. cbn [device]. exists m, m', p.
  split; [reflexivity|]. split; [exact Hto|]. split; [reflexivity|].
  intros rqs image v G.
  match type of G with generated (serve rqs ?w) _ = _ => set (w1 := w) in * end.
  rewrite <- (generated_globals w1 (serve rqs w1) image (serve_globals rqs w1)) in G.
  destruct (generated_is_normalized w1 image v G)
    as (m1 & p1 & x & y & t & Hm1 & Hp1 & Hx & Hy & Ht & Hv).
  injection Hm1 as <-. injection Hp1 as <-.
  now exists x, y, t.
Qed.

Lemma normalize_shape (t : list (list float)) :
  map (@length float) (normalize t) = map (@length float) t.
Proof.
  unfold normalize. rewrite map_map. apply map_ext. intros row. apply length_map.
Qed.

(** X14. The vector returned has one entry for every feature the model
    gave for this image, whatever the number of rows: it is as long as the
    rows of the tensor that the stored model returns on the processor's
    output for the image, moved to the device, and normalisation keeps the
    shape of that tensor. *)
Theorem embedding_has_one_entry_per_feature (w : world) (image : PILImage)
    (v : list float) :
  generated w image = Ok v ->
  exists m p x y t,
    model w = Some m
    /\ processor w = Some p
    /\ processor_call p image = Ok x
    /\ BatchFeature_to x (device w) = Ok y
    /\ get_image_features m y = Ok t
    /\ map (@length float) (normalize t) = map (@length float) t
    /\ length v = list_sum (map (@length float) t).
Proof.
  intros G.
  destruct (generated_is_normalized w image v G)
    as (m & p & x & y & t & Hm & Hp & Hx & Hy & Ht & ->).
  exists m, p, x, y, t. repeat (split; [assumption|]).
  split; [apply normalize_shape|].
  unfold flatten. now rewrite length_concat, normalize_shape.
Qed.

(** X15. While [model] or [processor] is [None], [create_embedding]
    answers a request whose image decodes with status 500 and the detail
    "Embedding generation failed: Model not loaded", and writes one ERROR
    record saying so. *)
Theorem create_embedding_before_load (w : world) (r : EmbeddingRequest)
    (image : PILImage) :
  model w = None \/ processor w = None ->
  decode_image (image_base64 r) = Ok image ->
  create_embedding r w
  = (Raised (HTTPException 500 "Embedding generation failed: Model not loaded"),
     with_log w [(ERROR, "Error generating embedding: Model not loaded")]).
Proof.
  intros N D. rewrite create_embedding_run, embed_item_steps, D.
  now rewrite (generated_not_ready w image N).
Qed.

End LifecycleFurther.

(** ** The further properties at work on the test doubles *)

Module FurtherRuns.
Import Stub.

Lemma decode_image_ignores_text_after_second_separator_run :
  str_contains comma "data:image/png;base64" = false
  /\ str_contains comma png = false
  /\ @decode_image accepting "data:image/png;base64,iVBORw==,AAAA"
     = @decode_image accepting png.
Proof.
  split; [reflexivity|]. split; [reflexivity|].
  exact (@decode_image_ignores_text_after_second_separator accepting
           "data:image/png;base64" png "AAAA" eq_refl eq_refl).
Defined.

Lemma lifespan_startup_succeeds_run :
  @CLIPModel_from_pretrained Faulty.online model_name = Ok model_name
  /\ @lifespan_startup Faulty.online initial_world
     = (Ok tt,
        @Build_world Faulty.online
          (Some "openai/clip-vit-base-patch32@cuda.eval")
          (Some model_name)
          "cuda"
          [ (INFO, "Loading CLIP model (ViT-B/32)...");
            (INFO, "Using device: cuda");
            (INFO, "CLIP model loaded successfully!") ]).
Proof.
  split; [reflexivity|].
  exact (@lifespan_startup_succeeds Faulty.online initial_world model_name
           "openai/clip-vit-base-patch32@cuda" model_name eq_refl eq_refl eq_refl).
Defined.

Lemma lifespan_startup_without_model_run :
  @CLIPModel_from_pretrained Faulty.no_model model_name = Faulty.offline
  /\ exists w,
       @lifespan_startup Faulty.no_model initial_world = (Faulty.offline, w)
       /\ model w = None /\ processor w = None /\ device w = "cuda".
Proof.
  split; [reflexivity|].
  destruct (@lifespan_startup_without_model Faulty.no_model
              (Exn OSError "We couldn't connect to 'https://huggingface.co'")
              (or_introl eq_refl)) as (w & A & B & C & D & _).
  exists w. now repeat split.
Defined.

Lemma lifespan_startup_without_processor_run :
  @CLIPProcessor_from_pretrained Faulty.no_processor model_name = Faulty.offline
  /\ exists w,
       @lifespan_startup Faulty.no_processor initial_world = (Faulty.offline, w)
       /\ fst (health_check w)
          = Ok {| status := "healthy"; model_loaded := true; health_device := "cuda" |}
       /\ is_ok (fst (create_embedding validA w)) = false
       /\ fst (create_batch_embeddings {| images := [validA; validC] |} w)
          = Ok {| embeddings := [] |}.
Proof.
  split; [reflexivity|].
  destruct (@lifespan_startup_without_processor Faulty.no_processor
              (Exn OSError "We couldn't connect to 'https://huggingface.co'")
              model_name "openai/clip-vit-base-patch32@cuda"
              eq_refl eq_refl eq_refl) as (w & A & _ & _ & H & S & B).
  exists w. split; [exact A|]. split; [exact H|].
  split; [exact (S validA) | exact (B {| images := [validA; validC] |})].
Defined.

Lemma generation_uses_the_loaded_model_and_device_run :
  @lifespan_startup Faulty.online initial_world
  = (Ok tt, snd (@lifespan_startup Faulty.online initial_world))
  /\ exists v t,
       generated (serve [GET_health; POST_embed corruptB]
                        (snd (@lifespan_startup Faulty.online initial_world)))
                 signature = Ok v
       /\ @get_image_features Faulty.online
            "openai/clip-vit-base-patch32@cuda.eval" signature = Ok t
       /\ v = flatten (normalize t).
Proof.
  split; [reflexivity|].
  destruct (@generation_uses_the_loaded_model_and_device Faulty.online
              (snd (@lifespan_startup Faulty.online initial_world)) eq_refl)
    as (m & m' & p & Hm & Hto & Hp & G).
  injection Hm as <-. injection Hto as <-. injection Hp as <-.
  destruct (G [GET_health; POST_embed corruptB] signature _ eq_refl)
    as (x & y & t & Hx & Hy & Ht & Hv).
  injection Hx as <-. injection Hy as <-.
  eexists _, t. split; [reflexivity|]. split; [exact Ht | exact Hv].
Defined.

Lemma embedding_has_one_entry_per_feature_run :
  exists v,
    generated ready signature = Ok v
    /\ length v = 512.
Proof.
  eexists. split; [reflexivity|].
  destruct (@embedding_has_one_entry_per_feature accepting ready signature _ eq_refl)
    as (m & p & x & y & t & _ & _ & _ & _ & Ht & _ & L).
  injection Ht as <-. exact L.
Defined.

Lemma create_embedding_before_load_run :
  @decode_image accepting (image_base64 validC) = Ok signature
  /\ @create_embedding accepting validC initial_world
     = (Raised (HTTPException 500 "Embedding generation failed: Model not loaded"),
        with_log initial_world
          [(ERROR, "Error generating embedding: Model not loaded")]).
Proof.
  split; [reflexivity|].
  exact (@create_embedding_before_load accepting initial_world validC signature
           (or_introl eq_refl) eq_refl).
Defined.

End FurtherRuns.

(** ** The length of the normalised vector *)

Module UnitLength.
Import Reals Lra Psatz Reading.
Local Open Scope R_scope.

Section Bounds.
Context {P : Platform}.
Variable value : float -> R.

Lemma sum_squares_nonneg (row : list float) : 0 <= sum_squares value row.
Proof. induction row as [|a row IH]; simpl; [lra | nra]. Qed.

Lemma sum_squares_repeat (a : float) (n : nat) :
  sum_squares value (repeat a n) = INR n * (value a * value a).
Proof.
  induction n as [|n IH]; [simpl; lra|].
  rewrite S_INR. cbn [repeat sum_squares fold_right].
  change (fold_right (fun x acc => value x * value x + acc) 0 (repeat a n))
    with (sum_squares value (repeat a n)).
  rewrite IH. lra.
Qed.

(** A number within the relative error [u] of [q] has its square between
    [(1-u)^2 q^2] and [(1+u)^2 q^2]. *)
Lemma square_within (y q u : R) :
  0 <= u <= 1 ->
  Rabs (y - q) <= u * Rabs q ->
  (1 - u) * (1 - u) * (q * q) <= y * y <= (1 + u) * (1 + u) * (q * q).
Proof.
  intros Hu H.
  assert (Sq : forall a b, 0 <= a <= b -> a * a <= b * b) by (intros; nra).
  assert (Ab : forall x, Rabs x * Rabs x = x * x)
    by (intros x; unfold Rabs; destruct (Rcase_abs x); lra).
  pose proof (Rabs_pos q) as Hq. pose proof (Rabs_pos y) as Hy.
  assert (Hhi : Rabs y <= (1 + u) * Rabs q).
  { pose proof (Rabs_triang (y - q) q) as T.
    replace (y - q + q) with y in T by lra. lra. }
  assert (Hlo : (1 - u) * Rabs q <= Rabs y).
  { pose proof (Rabs_triang (q - y) y) as T.
    replace (q - y + y) with q in T by lra.
    rewrite (Rabs_minus_sym q y) in T. lra. }
  rewrite <- (Ab y), <- (Ab q). split.
  - replace ((1 - u) * (1 - u) * (Rabs q * Rabs q))
      with (((1 - u) * Rabs q) * ((1 - u) * Rabs q)) by lra.
    apply Sq. split; [|exact Hlo]. apply Rmult_le_pos; lra.
  - replace ((1 + u) * (1 + u) * (Rabs q * Rabs q))
      with (((1 + u) * Rabs q) * ((1 + u) * Rabs q)) by lra.
    apply Sq. split; [exact Hy | exact Hhi].
Qed.

(** The squares of the computed quotients add up to the squares of the row
    over the square of the divisor, up to the relative error of a division. *)
Lemma sum_squares_of_quotients (u : R) (n : float) (row : list float) :
  0 <= u <= 1 ->
  (forall x, In x row -> div_within value u x n) ->
  (1 - u) * (1 - u) * (sum_squares value row * (/ value n * / value n))
  <= sum_squares value (map (fun x => float_div x n) row)
  <= (1 + u) * (1 + u) * (sum_squares value row * (/ value n * / value n)).
Proof.
  intros Hu. induction row as [|a row IH]; intros H.
  - simpl. lra.
  - assert (Ha : div_within value u a n) by (apply H; now left).
    assert (Hrow : forall x, In x row -> div_within value u x n)
      by (intros x Hx; apply H; now right).
    specialize (IH Hrow). unfold div_within in Ha.
    pose proof (square_within _ _ _ Hu Ha) as Hsq.
    cbn [map sum_squares fold_right].
    change (fold_right (fun x acc => value x * value x + acc) 0
              (map (fun x => float_div x n) row))
      with (sum_squares value (map (fun x => float_div x n) row)).
    change (fold_right (fun x acc => value x * value x + acc) 0 row)
      with (sum_squares value row).
    set (T := sum_squares value (map (fun x => float_div x n) row)) in *.
    set (S := sum_squares value row) in *.
    set (y := value (float_div a n)) in *.
    set (i := / value n) in *. set (va := value a) in *.
    split; nra.
Qed.

(** Dividing a row of non-zero norm by its norm gives a vector of length 1
    within 1e-4, when norm and divisions are accurate to 1e-5. *)
Lemma normalized_row_length (u : R) (row : list float) :
  0 <= u <= 1 / 100000 ->
  0 < euclidean_norm value row ->
  norm_within value u row ->
  (forall x, In x row -> div_within value u x (norm_p2 row)) ->
  Rabs (euclidean_norm value (map (fun x => float_div x (norm_p2 row)) row) - 1)
  <= 1 / 10000.
Proof.
  intros Hu Hs Hn Hd.
  assert (Hu1 : 0 <= u <= 1) by lra.
  pose proof (sum_squares_of_quotients u (norm_p2 row) row Hu1 Hd) as HT.
  pose proof (sum_squares_nonneg row) as HS0.
  pose proof (sum_squares_nonneg (map (fun x => float_div x (norm_p2 row)) row)) as HT0.
  unfold euclidean_norm in *. unfold norm_within, euclidean_norm in Hn.
  set (S := sum_squares value row) in *.
  set (T := sum_squares value (map (fun x => float_div x (norm_p2 row)) row)) in *.
  set (N := value (norm_p2 row)) in *.
  pose proof (sqrt_sqrt S HS0) as Hss. pose proof (sqrt_sqrt T HT0) as Hrr.
  pose proof (sqrt_pos T) as Hr0.
  set (s := sqrt S) in *. set (r := sqrt T) in *.
  assert (HN : (1 - u) * s <= N <= (1 + u) * s).
  { unfold Rabs in Hn. destruct (Rcase_abs (N - s)); split; lra. }
  assert (HNpos : 0 < N) by nra.
  assert (Hi : 0 < / N) by now apply Rinv_0_lt_compat.
  assert (HNi : N * / N = 1) by (apply Rinv_r; lra).
  set (i := / N) in *. set (k := s * i).
  assert (Hk0 : 0 < k) by (unfold k; nra).
  assert (Hklo : k * (1 - u) <= 1) by (unfold k; nra).
  assert (Hkhi : 1 <= k * (1 + u)) by (unfold k; nra).
  assert (HSk : S * (i * i) = k * k) by (unfold k; nra).
  rewrite HSk in HT. destruct HT as [HTlo HThi].
  assert (Hrhi : r <= (1 + u) * k) by nra.
  assert (Hrlo : (1 - u) * k <= r) by nra.
  assert (Hup : r * (1 - u) <= 1 + u) by nra.
  assert (Hdown : 1 - u <= r * (1 + u)) by nra.
  assert (r <= 1 + 3 * u) by nra.
  assert (1 - 2 * u <= r) by nra.
  unfold Rabs. destruct (Rcase_abs (r - 1)); lra.
Qed.

(** C1 (as the code has it). When the model gives one row of features for
    the image, the vector [generate_embedding] returns is that row with each
    entry divided by the norm the platform computes for the row.  If the
    Euclidean norm of the row is not zero and the computed norm and the
    computed quotients are each within a relative error of 1e-5 of the exact
    ones, the returned vector has Euclidean norm 1 within 1e-4. *)
Theorem normalized_vector_has_unit_length (w : world) (image : PILImage)
    (v : list float) (u : R) :
  0 <= u <= 1 / 100000 ->
  (forall m x t, get_image_features m x = Ok t -> exists row, t = [row]) ->
  generated w image = Ok v ->
  exists m p x y row,
    model w = Some m /\ processor w = Some p
    /\ processor_call p image = Ok x
    /\ BatchFeature_to x (device w) = Ok y
    /\ get_image_features m y = Ok [row]
    /\ v = map (fun a => float_div a (norm_p2 row)) row
    /\ (0 < euclidean_norm value row ->
        norm_within value u row ->
        (forall a, In a row -> div_within value u a (norm_p2 row)) ->
        Rabs (euclidean_norm value v - 1) <= 1 / 10000).
Proof.
  intros Hu Hshape G.
  destruct (generated_is_normalized w image v G)
    as (m & p & x & y & t & Hm & Hp & Hx & Hy & Ht & Hv).
  destruct (Hshape m y t Ht) as [row ->].
  assert (E : v = map (fun a => float_div a (norm_p2 row)) row).
  { rewrite Hv. unfold flatten, normalize. simpl. apply app_nil_r. }
  exists m, p, x, y, row. repeat (split; [assumption|]).
  intros Hs Hn Hd. rewrite E. exact (normalized_row_length u row Hu Hs Hn Hd).
Qed.

End Bounds.

End UnitLength.

Module UnitLengthRuns.
Import Reals Lra Psatz Reading UnitLength Stub.
Local Open Scope R_scope.

Lemma B2R_one : B2R PrimFloat.one = 1.
Proof.
  unfold B2R. set (f := fraction _). vm_compute in f. subst f. cbn [fst snd]. lra.
Qed.

Lemma B2R_nan : B2R PrimFloat.nan = 0.
Proof.
  unfold B2R. set (f := fraction _). vm_compute in f. subst f. cbn [fst snd]. lra.
Qed.

Lemma ones_norm_within :
  @norm_within accepting B2R (1 / 100000) (repeat PrimFloat.one 512).
Proof.
  unfold norm_within, euclidean_norm.
  pose proof (@sum_squares_repeat accepting B2R PrimFloat.one 512) as E.
  cbn [float accepting platform] in E. rewrite E, B2R_one.
  rewrite INR_IZR_INZ. change (Z.of_nat 512) with 512%Z.
  replace (512 * (1 * 1)) with 512 by lra.
  assert (H512 : 0 <= 512) by lra.
  pose proof (sqrt_sqrt 512 H512) as Hss.
  assert (Hs : 0 < sqrt 512) by (apply sqrt_lt_R0; lra).
  set (s := sqrt 512) in *.
  change (@norm_p2 accepting) with Stub.l2.
  unfold B2R. set (f := fraction _). vm_compute in f. subst f. cbn [fst snd].
  apply Rabs_le. split; nra.
Qed.

Lemma ones_div_within :
  @div_within accepting B2R (1 / 100000) PrimFloat.one
    (Stub.l2 (repeat PrimFloat.one 512)).
Proof.
  unfold div_within. change (@float_div accepting) with PrimFloat.div.
  rewrite B2R_one. unfold B2R.
  set (f := fraction _). set (g := fraction _). vm_compute in f, g.
  subst f g. cbn [fst snd].
  replace (1 * / (6369051672525773 * / 281474976710656))
    with (281474976710656 * / 6369051672525773) by (field; lra).
  rewrite (Rabs_pos_eq (281474976710656 * / 6369051672525773)) by lra.
  apply Rabs_le. split; lra.
Qed.

Lemma ones_shape :
  forall m x t, @get_image_features accepting m x = Ok t -> exists row, t = [row].
Proof. intros m x t [= <-]. eexists. reflexivity. Defined.

Lemma normalized_vector_has_unit_length_run :
  exists v,
    generated ready signature = Ok v
    /\ Rabs (@euclidean_norm accepting B2R v - 1) <= 1 / 10000.
Proof.
  assert (Hu : 0 <= 1 / 100000 <= 1 / 100000) by lra.
  destruct (@normalized_vector_has_unit_length accepting B2R ready signature
              _ (1 / 100000) Hu ones_shape eq_refl)
    as (m & p & x & y & row & _ & _ & _ & _ & Hrow & _ & H).
  injection Hrow as <-.
  eexists. split; [reflexivity|]. apply H.
  - change (0 < sqrt (@sum_squares accepting B2R (repeat PrimFloat.one 512))).
    pose proof (@sum_squares_repeat accepting B2R PrimFloat.one 512) as E.
    cbn [float accepting platform] in E. rewrite E, B2R_one, INR_IZR_INZ.
    change (Z.of_nat 512) with 512%Z. apply sqrt_lt_R0. lra.
  - exact ones_norm_within.
  - intros a Ha. change (In a (repeat PrimFloat.one 512)) in Ha.
    apply repeat_spec in Ha. subst a. exact ones_div_within.
Defined.

(** C1, as stated, fails when the model gives a row of zeros: its norm is
    0, every entry is 0/0, which is NaN in every IEEE format, and the vector
    returned holds NaN only, which has no length within any tolerance of 1.
    Generation succeeds all the same: line 132 divides without a guard. *)
Lemma zero_features_give_nan :
  Stub.l2 (repeat PrimFloat.zero 512) = PrimFloat.zero
  /\ generated Degenerate.ready signature = Ok (repeat PrimFloat.nan 512)
  /\ Stub.l2 (repeat PrimFloat.nan 512) = PrimFloat.nan
  /\ ~ (Rabs (@euclidean_norm Degenerate.platform B2R (repeat PrimFloat.nan 512) - 1)
        <= 1 / 10000).
Proof.
  split; [vm_compute; reflexivity|]. split; [vm_compute; reflexivity|].
  split; [vm_compute; reflexivity|].
  unfold euclidean_norm.
  pose proof (@sum_squares_repeat Degenerate.platform B2R PrimFloat.nan 512) as E.
  cbn [float Degenerate.platform] in E. rewrite E, B2R_nan.
  replace (INR 512 * (0 * 0)) with 0 by lra. rewrite sqrt_0.
  unfold Rabs. destruct (Rcase_abs (0 - 1)); lra.
Qed.

End UnitLengthRuns.

(** ** Characters outside the base64 alphabet *)

Lemma str_contains_append (sep : ascii) (s t : string) :
  str_contains sep (s ++ t)%string = str_contains sep s || str_contains sep t.
Proof.
  induction s as [|a s IH]; simpl; [reflexivity|].
  now destruct (Ascii.eqb a sep).
Qed.

Lemma is_ascii_insert (c : ascii) (s t : string) :
  nat_of_ascii c < 128 ->
  Base64.is_ascii (s ++ String c t) = Base64.is_ascii (s ++ t).
Proof.
  intros Hc. induction s as [|a s IH]; simpl.
  - now rewrite (proj2 (Nat.ltb_lt _ _) Hc).
  - now rewrite IH.
Qed.

(** The decoding loop passes over a character that is neither in the
    alphabet nor a pad without a change of its state. *)
Lemma a2b_base64_insert (c : ascii) (s t : string) :
  Base64.b64_index c = None ->
  Ascii.eqb c Base64.pad = false ->
  forall quad_pos leftchar pads bin,
    Base64.a2b_base64 (s ++ String c t) quad_pos leftchar pads bin
    = Base64.a2b_base64 (s ++ t) quad_pos leftchar pads bin.
Proof.
  intros Hc Hp. induction s as [|a s IH]; intros quad_pos leftchar pads bin.
  - cbn [append Base64.a2b_base64]. now rewrite Hp, Hc.
  - cbn [append Base64.a2b_base64].
    destruct (Ascii.eqb a Base64.pad).
    + destruct (2 <=? quad_pos)%nat; [|apply IH].
      destruct (4 <=? quad_pos + S pads)%nat; [reflexivity | apply IH].
    + destruct (Base64.b64_index a) as [v|]; [|apply IH].
      destruct quad_pos as [|[|[|quad_pos]]]; apply IH.
Qed.

Section Lenient.
Context {P : Platform}.

(** The bytes object the platform makes of a list of byte values. *)
Variable of_list : list nat -> bytes.

(** X16. With the decoder of the library behind [base64.b64decode], a
    character that is ASCII but neither in the base64 alphabet, nor a pad,
    nor a comma makes no difference anywhere in an input without commas:
    [decode_image] returns or raises with it what it returns or raises
    without it. *)
Theorem decode_image_ignores_characters_outside_alphabet
    (c : ascii) (s t : string) :
  (forall payload,
      base64_b64decode payload
      = match Base64.b64decode payload with
        | Ok data => Ok (of_list data)
        | Raised e => Raised e
        end) ->
  Base64.b64_index c = None ->
  Ascii.eqb c Base64.pad = false ->
  Ascii.eqb c comma = false ->
  nat_of_ascii c < 128 ->
  str_contains comma s = false ->
  str_contains comma t = false ->
  decode_image (s ++ String c t) = decode_image (s ++ t).
Proof.
  intros Hb Hc Hpad Hcomma Hascii Hs Ht.
  assert (P1 : b64_payload (s ++ String c t) = Ok (s ++ String c t)%string).
  { apply b64_payload_without_sep. rewrite str_contains_append, Hs. simpl.
    now rewrite Hcomma. }
  assert (P2 : b64_payload (s ++ t) = Ok (s ++ t)%string).
  { apply b64_payload_without_sep. now rewrite str_contains_append, Hs. }
  unfold decode_image. rewrite P1, P2. simpl. rewrite !Hb.
  unfold Base64.b64decode.
  now rewrite (is_ascii_insert c s t Hascii), (a2b_base64_insert c s t Hc Hpad).
Qed.

End Lenient.

Module LenientRuns.
Import Stub.

Lemma decode_image_ignores_characters_outside_alphabet_run :
  Base64.valid_base64 "iVBO!Rw==" = false
  /\ @decode_image accepting "iVBO!Rw==" = @decode_image accepting "iVBORw==".
Proof.
  split; [reflexivity|].
  exact (@decode_image_ignores_characters_outside_alphabet accepting (fun data => data)
           "!"%char "iVBO" "Rw=="
           (fun payload => match Base64.b64decode payload as r
                                 return r = match r with
                                            | Ok data => Ok data
                                            | Raised e => Raised e
                                            end
                           with Ok _ => eq_refl | Raised _ => eq_refl end)
           eq_refl eq_refl eq_refl
           (proj1 (Nat.ltb_lt (nat_of_ascii "!"%char) 128) eq_refl) eq_refl eq_refl).
Defined.

End LenientRuns.
